(** * Air-quality dashboard: the AQI core of [app.py]

    A shallow embedding of the computational core of
    [air-quality-dash/app.py]: the breakpoint table, the per-value AQI
    interpolation, the category classifier, the pivot/resample step and the
    KPI block of the [update_all] callback, and the two small callbacks
    [update_stations] and [update_dates] that feed its inputs.

    Numbers.  The source computes with Python floats and uses NaN (or
    [None]) for "no data".  Here a number is a rational ([Q]) and a
    possibly-missing number is an [option Q], [None] standing for NaN/None.
    Equality of computed rationals is [Qeq] ([==]).  The module
    [Binary64] repeats the interpolation on binary64 floats, to evaluate
    it at given concentrations with the rounding of the source.
    Timestamps are pandas' integer nanoseconds since the epoch ([Z]).

    Rounding.  Comparisons, maxima, counts and the choice of a table row
    do not round, and the interpolation keeps its order and its range
    under rounding.  A mean does round in the source: [mean] below is
    the exact quotient, which the binary64 mean of pandas approximates to
    within rounding.  The properties therefore use a mean only for what
    rounding preserves: whether it is NaN, the order of the mask means of
    the exceedance rate, and which of the computed means is largest.
    Nothing is stated about the exact value of a mean, nor about a mean
    staying within the range of its arguments, which fails in binary64
    by one unit in the last place.

    Library calls.  [pivot_table], [resample(...).mean()], [idxmax],
    [pd.cut] and [value_counts().reindex(...)] are pandas functions; they
    are modelled here by what they compute on the frames of the callback.
    String formatting of numbers and dates is left abstract. *)

From Stdlib Require Import Ascii String QArith Lqa Floats.
From stdpp Require Import gmap strings list sorting.

Local Open Scope string_scope.
Local Open Scope list_scope.
Local Open Scope Z_scope.

(* Decimal constants such as 12.1 are rounded to the nearest float. *)
#[local] Set Warnings "-inexact-float".

(** ** Comparisons on numbers, as booleans *)

Definition Qleb (x y : Q) : bool := Qle_bool x y.
Definition Qltb (x y : Q) : bool := negb (Qle_bool y x).

(** The chained comparison [lo <= v <= hi]. *)
Definition between (lo v hi : Q) : bool := Qleb lo v && Qleb v hi.

(** [np.nan] *)
Definition nan : option Q := None.

(** ** AQI utilities *)

(** One row [(BPlo, BPhi, Ilo, Ihi)] of a breakpoint table. *)
Abbreviation Breakpoint := (Q * Q * Q * Q)%type.

Definition BPlo (b : Breakpoint) : Q := b.1.1.1.
Definition BPhi (b : Breakpoint) : Q := b.1.1.2.
Definition Ilo (b : Breakpoint) : Q := b.1.2.
Definition Ihi (b : Breakpoint) : Q := b.2.

Definition pm25_table : list Breakpoint :=
  [ (0.0,   12.0,    0,  50);
    (12.1,  35.4,   51, 100);
    (35.5,  55.4,  101, 150);
    (55.5,  150.4, 151, 200);
    (150.5, 250.4, 201, 300);
    (250.5, 350.4, 301, 400);
    (350.5, 500.4, 401, 500) ]%Q.

Definition o3_table : list Breakpoint :=
  [ (0,   54,    0,  50);
    (55,  70,   51, 100);
    (71,  85,  101, 150);
    (86,  105, 151, 200);
    (106, 200, 201, 300) ]%Q.

Definition AQI_TABLE : gmap string (list Breakpoint) :=
  <["pm25" := pm25_table]> (<["o3" := o3_table]> ∅).

Definition AQI_CATEGORY : list (Q * Q * string) :=
  [ (0%Q,   50%Q,  "Good");
    (51%Q,  100%Q, "Moderate");
    (101%Q, 150%Q, "Unhealthy for Sensitive Groups");
    (151%Q, 200%Q, "Unhealthy");
    (201%Q, 300%Q, "Very Unhealthy");
    (301%Q, 500%Q, "Hazardous") ].

(** The placeholder returned for "no category". *)
Definition no_category : string := "—".

(** The linear interpolation of one breakpoint. *)
Definition interpolate (b : Breakpoint) (value : Q) : Q :=
  ((Ihi b - Ilo b) / (BPhi b - BPlo b) * (value - BPlo b) + Ilo b)%Q.

(** The [for] loop of [compute_aqi_for_value]: the first breakpoint that
    contains [value] returns; [None] when the loop falls through. *)
Fixpoint scan_table (table : list Breakpoint) (value : Q) : option Q :=
  match table with
  | [] => None
  | b :: rest =>
      if between (BPlo b) value (BPhi b)
      then Some (interpolate b value)
      else scan_table rest value
  end.

(** [table and value > table[-1][1]] *)
Definition above_last (table : list Breakpoint) (value : Q) : bool :=
  match last table with
  | Some b => Qltb (BPhi b) value
  | None => false
  end.

Definition compute_aqi_for_value (pollutant : string) (value : option Q)
  : option Q :=
  match value with
  | None => nan
  | Some v =>
      let table := default [] (AQI_TABLE !! pollutant) in
      match scan_table table v with
      | Some aqi => Some aqi
      | None => if above_last table v then Some 500%Q else nan
      end
  end.

(** The [for] loop of [aqi_category]. *)
Fixpoint scan_category (bands : list (Q * Q * string)) (aqi : Q)
  : option string :=
  match bands with
  | [] => None
  | (lo, hi, name) :: rest =>
      if between lo aqi hi then Some name else scan_category rest aqi
  end.

Definition aqi_category (aqi : option Q) : string :=
  match aqi with
  | None => no_category
  | Some a => default no_category (scan_category AQI_CATEGORY a)
  end.

(** ** Readings and frames *)

(** One row of the loaded CSV.  A missing cell ([NaN]/[NaT]) is [None];
    [r_datetime_local] is the parsed timestamp, in nanoseconds. *)
Record Reading := {
  r_city : option string;
  r_station : option string;
  r_datetime_local : option Z;
  r_pollutant : string;
  r_value : option Q
}.

(** A row of a frame: one cell per column, [None] for NaN. *)
Abbreviation Row := (list (string * option Q)).

(** A frame indexed by timestamps. *)
Record DataFrame := {
  columns : list string;
  rows : list (Z * Row)
}.

Fixpoint cell_of (row : Row) (p : string) : option Q :=
  match row with
  | [] => nan
  | (c, x) :: rest => if decide (c = p) then x else cell_of rest p
  end.

Definition nanosecond : Z := 1.
Definition hour : Z := 3600 * 1000000000 * nanosecond.
Definition day : Z := 24 * hour.
Definition week : Z := 7 * day.

(** [Timestamp.normalize()]: midnight of the same day. *)
Definition normalize (t : Z) : Z := t `div` day * day.

(** ** Means and maxima that skip NaN *)

Definition sum (l : list Q) : Q := foldr Qplus 0%Q l.

(** The mean of the values present; NaN when there is none.  The
    quotient is exact; pandas and numpy round it to binary64, so that the
    mean of 13 readings of 12.1 is 12.099999999999998 there and 12.1
    here. *)
Definition mean (l : list Q) : option Q :=
  match l with
  | [] => nan
  | _ => Some (sum l / inject_Z (Z.of_nat (length l)))%Q
  end.

(** The values that are not NaN. *)
Definition dropna_values (s : list (option Q)) : list Q := omap id s.

Definition nanmean (s : list (option Q)) : option Q := mean (dropna_values s).

(** [series.notna().any()] *)
Definition notna_any (s : list (option Q)) : bool :=
  existsb (λ x, bool_decide (is_Some x)) s.

(** The maximum of a row, NaN skipped; NaN when every cell is NaN. *)
Definition nanmax (s : list (option Q)) : option Q :=
  foldr (λ x acc,
           match x, acc with
           | Some a, Some m => Some (if Qleb m a then a else m)
           | Some a, None => Some a
           | None, _ => acc
           end) nan s.

(** [series.idxmax()]: the label of the first occurrence of the maximum,
    NaN skipped, with the maximum itself. *)
Fixpoint idxmax {L : Type} (s : list (L * option Q)) : option (L * Q) :=
  match s with
  | [] => None
  | (l, x) :: rest =>
      match x, idxmax rest with
      | None, r => r
      | Some a, None => Some (l, a)
      | Some a, Some (l', a') => if Qltb a a' then Some (l', a') else Some (l, a)
      end
  end.

(** ** Filtering *)

(** Truthiness of an optional string: [None] and the empty string are
    false. *)
Definition truthy (o : option string) : bool :=
  match o with
  | Some s => negb (String.eqb s "")
  | None => false
  end.

(** The stations of a city in the loaded data. *)
Definition valid_stations (df : list Reading) (city : option string)
  : list string :=
  omap r_station (filter (λ r, r_city r = city) df).

(** The guard on the station: a station that does not belong to the
    selected city is ignored. *)
Definition guard_station (df : list Reading) (city station : option string)
  : option string :=
  match station with
  | Some s =>
      if truthy city && truthy station
         && bool_decide (s ∉ valid_stations df city)
      then None else station
  | None => None
  end.

(** Comparisons of the timestamp column with a bound; NaT compares
    false. *)
Definition on_or_after (bound : Z) (t : option Z) : bool :=
  match t with
  | Some t => bool_decide (bound ≤ t)
  | None => false
  end.

Definition before (bound : Z) (t : option Z) : bool :=
  match t with
  | Some t => bool_decide (t < bound)
  | None => false
  end.

Definition filter_readings (df : list Reading) (city station : option string)
    (sd ed : option Z) (pollutants : list string) : list Reading :=
  let dff := df in
  let dff := if truthy city then filter (λ r, r_city r = city) dff else dff in
  let dff :=
    if truthy station then filter (λ r, r_station r = station) dff else dff in
  let dff :=
    match sd with
    | Some sd =>
        filter (λ r, on_or_after sd (r_datetime_local r)) dff
    | None => dff
    end in
  let dff :=
    match ed with
    | Some ed =>
        filter (λ r, before (ed + 1 * day) (r_datetime_local r)) dff
    | None => dff
    end in
  match pollutants with
  | [] => dff
  | _ => filter (λ r, r_pollutant r ∈ pollutants) dff
  end.

(** ** Pivot and resample *)

(** A reading whose timestamp and value are present. *)
Abbreviation Obs := (Z * string * Q)%type.

Definition obs_le (o1 o2 : Obs) : Prop := o1.1.1 ≤ o2.1.1.

#[local] Instance obs_le_dec (o1 o2 : Obs) : Decision (obs_le o1 o2).
Proof. unfold obs_le. apply _. Defined.

(** [dropna(subset=["datetime_local", "value"]).sort_values("datetime_local")] *)
Definition dropna (dff : list Reading) : list Obs :=
  merge_sort obs_le
    (omap (λ r,
             match r_datetime_local r, r_value r with
             | Some t, Some v => Some (t, r_pollutant r, v)
             | _, _ => None
             end) dff).

(** The values recorded for a pollutant at a timestamp. *)
Definition values_at (obs : list Obs) (t : Z) (p : string) : list Q :=
  omap (λ o : Obs, if decide (o.1.1 = t ∧ o.1.2 = p) then Some o.2 else None)
       obs.

(** [pivot_table(index="datetime_local", columns="pollutant",
    values="value", aggfunc="mean").sort_index()]: one row per timestamp,
    one column per pollutant, each cell the mean of the readings of that
    pollutant at that timestamp.  (pandas orders the columns
    alphabetically; the callback never looks at their order.) *)
Definition pivot_table (obs : list Obs) : DataFrame :=
  let cols := remove_dups ((λ o : Obs, o.1.2) <$> obs) in
  {| columns := cols;
     rows :=
       (λ t, (t, (λ p, (p, mean (values_at obs t p))) <$> cols))
         <$> merge_sort Z.le (remove_dups ((λ o : Obs, o.1.1) <$> obs)) |}.

(** The label of the bin a timestamp falls in.  Hours and days are
    left-closed and labelled by their start; weeks end on Sunday, are
    right-closed and labelled by that Sunday (day 3 of the epoch is a
    Sunday). *)
Definition bucket_label (agg : string) (t : Z) : Z :=
  if String.eqb agg "H" then t `div` hour * hour
  else if String.eqb agg "D" then t `div` day * day
  else let d := t `div` day in (d + (3 - d) `mod` 7) * day.

Definition bucket_width (agg : string) : Z :=
  if String.eqb agg "H" then hour
  else if String.eqb agg "D" then day
  else week.

(** The cells of a column that fall in the bin labelled [b]. *)
Definition cells_in (agg : string) (conc : DataFrame) (b : Z) (p : string)
  : list (option Q) :=
  (λ r : Z * Row, cell_of r.2 p)
    <$> filter (λ r : Z * Row, bucket_label agg r.1 = b) (rows conc).

(** [conc.resample(agg).mean()]: every bin from the one of the first row
    to the one of the last row, each cell the mean of the cells of the
    column that fall in the bin, NaN skipped. *)
Definition resample_mean (agg : string) (conc : DataFrame) : DataFrame :=
  match head (rows conc), last (rows conc) with
  | Some first, Some last =>
      let b0 := bucket_label agg first.1 in
      let n := (bucket_label agg last.1 - b0) `div` bucket_width agg + 1 in
      {| columns := columns conc;
         rows :=
           (λ k, let b := b0 + k * bucket_width agg in
                 (b, (λ p, (p, nanmean (cells_in agg conc b p)))
                       <$> columns conc))
             <$> seqZ 0 n |}
  | _, _ => conc
  end.

Definition is_granularity (agg : string) : bool :=
  String.eqb agg "H" || String.eqb agg "D" || String.eqb agg "W".

(** The concentrations frame of the callback, from the filtered readings. *)
Definition concentrations (dff : list Reading) (agg : string) : DataFrame :=
  let conc := pivot_table (dropna dff) in
  if is_granularity agg then resample_mean agg conc else conc.

(** ** The AQI frame *)

(** One row of [aqi_df]. *)
Record Bucket := {
  timestamp : Z;
  index_by_pollutant : Row;
  aqi_max : option Q;
  aqi_cat : string
}.

(** The keys of [aqi_cols], in insertion order. *)
Definition aqi_columns (pollutants : list string) (conc : DataFrame)
  : list string :=
  foldl (λ keys p, if decide (p ∈ keys) then keys else keys ++ [p]) []
        (filter (λ p, p ∈ columns conc) pollutants).

Definition aqi_frame (pollutants : list string) (conc : DataFrame)
  : list Bucket :=
  (λ r : Z * Row,
     let indices :=
       (λ p, (p, compute_aqi_for_value p (cell_of r.2 p)))
         <$> aqi_columns pollutants conc in
     let overall := nanmax (indices.*2) in
     {| timestamp := r.1;
        index_by_pollutant := indices;
        aqi_max := overall;
        aqi_cat := aqi_category overall |})
    <$> rows conc.

(** ** KPIs *)

(** [thresh or 100]: a missing threshold, and the threshold zero, count
    as 100. *)
Definition thresh_or_100 (thresh : option Q) : Q :=
  match thresh with
  | Some t => if Qeq_bool t 0 then 100%Q else t
  | None => 100%Q
  end.

(** One entry of the mask [aqi_df["aqi_max"] >= threshold]; a comparison
    with NaN is false. *)
Definition exceeds (threshold : Q) (x : option Q) : bool :=
  match x with
  | Some a => Qleb threshold a
  | None => false
  end.

(** [mask.mean()]: the mean of a boolean series, [True] counting 1 and
    [False] counting 0. *)
Definition bool_mean (mask : list bool) : option Q :=
  mean ((λ b : bool, if b then 1%Q else 0%Q) <$> mask).

Definition avg_aqi (aqi_df : list Bucket) : option Q :=
  let s := aqi_max <$> aqi_df in
  if notna_any s then nanmean s else nan.

Definition exceed_rate (aqi_df : list Bucket) (thresh : option Q)
  : option Q :=
  let s := aqi_max <$> aqi_df in
  if notna_any s
  then (λ m, m * 100)%Q <$> bool_mean (exceeds (thresh_or_100 thresh) <$> s)
  else nan.

(** [aqi_df["aqi_max"].idxmax()], when some bucket has an index. *)
Definition worst_idx (aqi_df : list Bucket) : option Z :=
  if notna_any (aqi_max <$> aqi_df)
  then fst <$> idxmax ((λ b, (timestamp b, aqi_max b)) <$> aqi_df)
  else None.

(** [aqi_df.loc[idx, "aqi_max"]] *)
Definition loc_aqi_max (aqi_df : list Bucket) (idx : Z) : option Q :=
  match list_find (λ b, timestamp b = idx) aqi_df with
  | Some (_, b) => aqi_max b
  | None => nan
  end.

(** The worst period: its timestamp and its index. *)
Definition worst (aqi_df : list Bucket) : option (Z * Q) :=
  match worst_idx aqi_df with
  | Some idx =>
      match loc_aqi_max aqi_df idx with
      | Some v => Some (idx, v)
      | None => None
      end
  | None => None
  end.

(** The mean index of each pollutant column, NaN skipped. *)
Definition mean_by_pollutant (cols : list string) (aqi_df : list Bucket)
  : list (string * option Q) :=
  (λ p, (p, nanmean ((λ b, cell_of (index_by_pollutant b) p) <$> aqi_df)))
    <$> cols.

Definition driver_key (means : list (string * option Q)) : string :=
  if notna_any (means.*2)
  then match idxmax means with
       | Some (k, _) => k
       | None => "—"
       end
  else "—".

Definition driver_label (key : string) : string :=
  if String.eqb key "pm25" then "PM2.5"
  else if String.eqb key "o3" then "O₃"
  else key.

(** ** Category distribution *)

Definition pie_bins : list Q := [0; 50; 100; 150; 200; 300; 500]%Q.

Definition pie_labels : list string :=
  [ "Good (0–50)"; "Moderate (51–100)"; "Unhealthy SG (101–150)";
    "Unhealthy (151–200)"; "Very Unhealthy (201–300)"; "Hazardous (301–500)" ].

(** [bins.searchsorted(x, side="left")] on increasing edges: the number of
    edges strictly below [x]. *)
Definition searchsorted_left (bins : list Q) (x : Q) : nat :=
  length (filter (λ b, Qltb b x) bins).

(** [pd.cut(x, bins, right=True, include_lowest=True)]: the position of
    the bin [(bins[i], bins[i+1]]] that holds [x], the lowest edge
    included in the first bin; nothing for NaN and for values outside the
    edges. *)
Definition cut (bins : list Q) (x : option Q) : option nat :=
  match x with
  | None => None
  | Some a =>
      let lowest :=
        match head bins with
        | Some b0 => Qeq_bool a b0
        | None => false
        end in
      let ids := if lowest then 1%nat else searchsorted_left bins a in
      if (ids =? 0)%nat || (ids =? length bins)%nat
      then None
      else Some (ids - 1)%nat
  end.

Definition cat_series (aqi_df : list Bucket) : list (option nat) :=
  cut pie_bins <$> (aqi_max <$> aqi_df).

(** [value_counts().reindex(labels, fill_value=0)]: one count per label,
    in the order of the labels. *)
Definition value_counts (labels : list string) (codes : list (option nat))
  : list (string * nat) :=
  imap (λ i label, (label, length (filter (λ c, c = Some i) codes))) labels.

Definition counts (aqi_df : list Bucket) : list (string * nat) :=
  value_counts pie_labels (cat_series aqi_df).

(** ** The callback *)

(** A figure, by its content.  The layout of a figure with data (margins,
    colours, hover texts) is not modelled. *)
Inductive Figure :=
| empty_fig (title : string)
| trend_figure (title : string) (x : list Z) (y : list (option Q))
               (hline : option Q) (annotation : option (Z * Q))
               (ymax : option Q)
| bar_figure (y : list string) (x : list (option Q))
| pie_figure (labels : list string) (values : list nat).

(** The eight outputs of [update_all]. *)
Record Outputs := {
  fig_aqi_trend : Figure;
  fig_pollutant_bar : Figure;
  fig_category_pie : Figure;
  kpi_avg_aqi : list string;
  kpi_exceed_rate : list string;
  kpi_worst_day : list string;
  kpi_top_driver : list string;
  insight_md : string
}.

(** The order of [sort_values(ascending=True)]: NaN comes last. *)
Definition nan_last_le (a b : string * option Q) : Prop :=
  match a.2, b.2 with
  | Some x, Some y => Qleb x y
  | _, None => True
  | None, Some _ => False
  end.

#[local] Instance nan_last_le_dec (a b : string * option Q) :
  Decision (nan_last_le a b).
Proof. unfold nan_last_le. destruct a.2, b.2; apply _. Defined.

Definition newline : string := String "010"%char "".

(** [sep.join(bits)] *)
Fixpoint join (sep : string) (bits : list string) : string :=
  match bits with
  | [] => ""
  | [b] => b
  | b :: rest => b +:+ sep +:+ join sep rest
  end.

Section Callback.

(** The readings loaded once when the module is imported. *)
Variable df : list Reading.

(** Number and date formatting of the standard library: [f"{x:.0f}"],
    [f"{x:.1f}"], [strftime('%Y-%m-%d %H:%M')] and [str(t.date())]. *)
Variable fmt_0f : Q → string.
Variable fmt_1f : Q → string.
Variable strftime : Z → string.
Variable fmt_date : Z → string.

(** Both early returns: empty figures, dashes, and a message. *)
Definition no_data (message : string) : Outputs :=
  {| fig_aqi_trend := empty_fig "AQI trend";
     fig_pollutant_bar := empty_fig "Pollutant contribution";
     fig_category_pie := empty_fig "AQI category breakdown";
     kpi_avg_aqi := ["Avg AQI: —"];
     kpi_exceed_rate := ["% ≥ threshold: —"];
     kpi_worst_day := ["Worst period: —"];
     kpi_top_driver := ["Top driver: —"];
     insight_md := message |}.

(** The part of the callback after [aqi_df] is built. *)
Definition dashboard (city station : option string) (sd ed : option Z)
    (thresh : option Q) (cols : list string) (aqi_df : list Bucket)
  : Outputs :=
  let avg_aqi := avg_aqi aqi_df in
  let exceed_rate := exceed_rate aqi_df thresh in
  let worst := worst aqi_df in
  let worst_txt :=
    match worst with
    | Some (worst_time, worst_value) =>
        strftime worst_time +:+ " (AQI " +:+ fmt_0f worst_value +:+ ")"
    | None => "—"
    end in
  let mean_by_pollutant := mean_by_pollutant cols aqi_df in
  let title_first :=
    match city with
    | Some c => if truthy city then "AQI trend — " +:+ c else "AQI trend"
    | None => "AQI trend"
    end in
  let title_station :=
    match station with
    | Some st => if truthy station then ["Station: " +:+ st] else []
    | None => []
    end in
  let title_period :=
    match sd, ed with
    | Some sd, Some ed => [fmt_date sd +:+ " → " +:+ fmt_date ed]
    | _, _ => []
    end in
  let title_bits := title_first :: title_station ++ title_period in
  let fig_trend :=
    trend_figure (join " | " title_bits)
      (timestamp <$> aqi_df) (aqi_max <$> aqi_df) thresh worst
      (match nanmax (aqi_max <$> aqi_df) with
       | Some m => Some (let y := (m * 1.15)%Q in
                         if Qleb 200 y then y else 200%Q)
       | None => None
       end) in
  let mean_by_pollutant_sorted := merge_sort nan_last_le mean_by_pollutant in
  let fig_bar :=
    bar_figure
      ((λ k, if String.eqb k "pm25" then "PM2.5" else "O₃")
         <$> mean_by_pollutant_sorted.*1)
      (mean_by_pollutant_sorted.*2) in
  let counts := counts aqi_df in
  let fig_pie := pie_figure (counts.*1) (counts.*2) in
  let avg_txt :=
    match avg_aqi with Some a => fmt_0f a | None => "—" end in
  let ex_txt :=
    match exceed_rate with Some r => fmt_1f r +:+ "%" | None => "—" end in
  let driver_label := driver_label (driver_key mean_by_pollutant) in
  let city_txt :=
    match city with
    | Some c => if truthy city then c else "selected area"
    | None => "selected area"
    end in
  let period_txt :=
    match sd, ed with
    | Some sd, Some ed => " from " +:+ fmt_date sd +:+ " to " +:+ fmt_date ed
    | _, _ => ""
    end in
  let insight :=
    "**Summary for " +:+ city_txt +:+ period_txt +:+ ":**" +:+ newline +:+ newline
    +:+ "- Average AQI: **" +:+ avg_txt +:+ "**; periods ≥ threshold: **"
    +:+ ex_txt +:+ "**." +:+ newline
    +:+ "- Worst period: **" +:+ worst_txt +:+ "**." +:+ newline
    +:+ "- Likely driver pollutant: **" +:+ driver_label +:+ "**."
    +:+ newline +:+ newline
    +:+ "**Health guidance:**" +:+ newline
    +:+ "- **Good (0–50):** Enjoy outdoor activities." +:+ newline
    +:+ "- **Moderate (51–100):** Sensitive individuals consider shorter exertion."
    +:+ newline
    +:+ "- **USG (101–150):** Sensitive groups limit prolonged or heavy exertion."
    +:+ newline
    +:+ "- **Unhealthy (151–200):** Everyone reduce prolonged or heavy exertion; sensitive groups avoid."
    +:+ newline in
  {| fig_aqi_trend := fig_trend;
     fig_pollutant_bar := fig_bar;
     fig_category_pie := fig_pie;
     kpi_avg_aqi := ["Avg AQI: " +:+ avg_txt];
     kpi_exceed_rate := ["% ≥ threshold: " +:+ ex_txt];
     kpi_worst_day := ["Worst period: " +:+ worst_txt];
     kpi_top_driver := ["Top driver: " +:+ driver_label];
     insight_md := insight |}.

(** The rows left after the filters of the callback. *)
Definition filtered (city station : option string)
    (start_date end_date : option Z) (pollutants : list string)
  : list Reading :=
  filter_readings df city (guard_station df city station)
    (normalize <$> start_date) (normalize <$> end_date) pollutants.

Definition update_all (city station : option string)
    (start_date end_date : option Z) (pollutants : list string)
    (agg : string) (thresh : option Q) : Outputs :=
  let station := guard_station df city station in
  let sd := normalize <$> start_date in
  let ed := normalize <$> end_date in
  let dff := filter_readings df city station sd ed pollutants in
  match dff with
  | [] => no_data "_No data in the selected filters._"
  | _ =>
      let conc := concentrations dff agg in
      match aqi_columns pollutants conc with
      | [] =>
          no_data "_No AQI could be computed for the selected pollutants._"
      | aqi_cols =>
          dashboard city station sd ed thresh aqi_cols
            (aqi_frame pollutants conc)
      end
  end.

End Callback.

(** A bucket known by its timestamp and its overall index only. *)
Definition overall (t : Z) (x : option Q) : Bucket :=
  {| timestamp := t;
     index_by_pollutant := [];
     aqi_max := x;
     aqi_cat := aqi_category x |}.

(** ** The station and date callbacks *)

(** [drop_duplicates()] and [unique()]: the first occurrence of every
    value, in order of appearance. *)
Definition drop_duplicates {A : Type} `{EqDecision A} (l : list A) : list A :=
  foldl (λ seen x, if decide (x ∈ seen) then seen else seen ++ [x]) [] l.

(** The order of [sort_values] and [sorted] on a column of strings: by
    code point, missing values last. *)
Definition na_last (a b : option string) : Prop :=
  match a, b with
  | Some x, Some y => String.le x y
  | _, None => True
  | None, Some _ => False
  end.

#[local] Instance na_last_dec (a b : option string) : Decision (na_last a b).
Proof. destruct a, b; apply _. Defined.

(** The order of [sort_values(["city", "station"])]. *)
Definition city_station_le (x y : option string * option string) : Prop :=
  if decide (x.1 = y.1) then na_last x.2 y.2 else na_last x.1 y.1.

#[local] Instance city_station_le_dec (x y : option string * option string) :
  Decision (city_station_le x y).
Proof. unfold city_station_le. destruct (decide _); apply _. Defined.

(** [sorted(df["city"].dropna().unique().tolist())] *)
Definition cities (df : list Reading) : list string :=
  merge_sort String.le (drop_duplicates (omap r_city df)).

(** [df[["city", "station"]].drop_duplicates().sort_values(["city", "station"])] *)
Definition stations_by_city (df : list Reading)
  : list (option string * option string) :=
  merge_sort city_station_le
    (drop_duplicates ((λ r, (r_city r, r_station r)) <$> df)).

(** The options of the station dropdown, each a label and a value, and
    its selected value. *)
Definition update_stations (df : list Reading) (city : option string)
  : list (string * string) * option string :=
  if truthy city
  then
    let opts :=
      drop_duplicates
        (omap snd (filter (λ cs, cs.1 = city) (stations_by_city df))) in
    ((λ s, (s, s)) <$> opts, None)
  else ([], None).

Definition minimum (t : Z) (ts : list Z) : Z := foldr Z.min t ts.
Definition maximum (t : Z) (ts : list Z) : Z := foldr Z.max t ts.

(** The bounds and the default range of the date picker.  A date is the
    timestamp of its midnight; the ISO strings of the last two outputs
    name the same two dates. *)
Definition update_dates (df : list Reading) (city station : option string)
  : option Z * option Z * option Z * option Z :=
  match df with
  | [] => (None, None, None, None)
  | _ =>
      let dff := df in
      let dff :=
        if truthy city then filter (λ r, r_city r = city) dff else dff in
      let dff :=
        if truthy station then filter (λ r, r_station r = station) dff
        else dff in
      match omap r_datetime_local dff with
      | [] => (None, None, None, None)
      | t :: ts =>
          let dmin := normalize (minimum t ts) in
          let dmax := normalize (maximum t ts) in
          (Some dmin, Some dmax, Some dmin, Some dmax)
      end
  end.

(** ** Contribution of a reading to a bucket *)

(** The label of the row of the concentrations frame a timestamp ends up
    in: its bin when the frame is resampled, the timestamp itself
    otherwise. *)
Definition bucket_of (agg : string) (t : Z) : Z :=
  if is_granularity agg then bucket_label agg t else t.

(** A reading contributes to the cell of pollutant [p] in the bucket
    labelled [b]. *)
Definition contributes (agg : string) (r : Reading) (p : string) (b : Z)
  : Prop :=
  r_pollutant r = p ∧
  ∃ t v, r_datetime_local r = Some t ∧ r_value r = Some v
         ∧ bucket_of agg t = b.

(** ** Sample data *)

(** Two PM2.5 readings of one station, two hours apart. *)
Definition sample_readings : list Reading :=
  [ {| r_city := Some "Kuwait City"; r_station := Some "S1";
       r_datetime_local := Some 0; r_pollutant := "pm25";
       r_value := Some 10%Q |};
    {| r_city := Some "Kuwait City"; r_station := Some "S1";
       r_datetime_local := Some (2 * hour); r_pollutant := "pm25";
       r_value := Some 20%Q |} ].

(** ** The same scan on binary64 floats *)

(** [compute_aqi_for_value] on the floats of the source, to evaluate it on
    given concentrations exactly as Python does.  The decimal constants of
    the table are rounded to the nearest binary64 value, as Python rounds
    them. *)
Module Binary64.

Abbreviation Breakpoint := (float * float * float * float)%type.

Definition pm25_table : list Breakpoint :=
  [ (0.0,   12.0,    0,  50);
    (12.1,  35.4,   51, 100);
    (35.5,  55.4,  101, 150);
    (55.5,  150.4, 151, 200);
    (150.5, 250.4, 201, 300);
    (250.5, 350.4, 301, 400);
    (350.5, 500.4, 401, 500) ]%float.

Definition o3_table : list Breakpoint :=
  [ (0,   54,    0,  50);
    (55,  70,   51, 100);
    (71,  85,  101, 150);
    (86,  105, 151, 200);
    (106, 200, 201, 300) ]%float.

Definition AQI_TABLE : gmap string (list Breakpoint) :=
  <["pm25" := pm25_table]> (<["o3" := o3_table]> ∅).

Fixpoint scan_table (table : list Breakpoint) (value : float)
  : option float :=
  match table with
  | [] => None
  | (BPlo, BPhi, Ilo, Ihi) :: rest =>
      if ((BPlo <=? value) && (value <=? BPhi))%float
      then Some ((Ihi - Ilo) / (BPhi - BPlo) * (value - BPlo) + Ilo)%float
      else scan_table rest value
  end.

(** [None] stands for NaN, the result as well as the argument. *)
Definition compute_aqi_for_value (pollutant : string) (value : option float)
  : option float :=
  match value with
  | None => None
  | Some v =>
      if PrimFloat.is_nan v then None
      else
        let table := default [] (AQI_TABLE !! pollutant) in
        match scan_table table v with
        | Some aqi => Some aqi
        | None =>
            match last table with
            | Some (_, BPhi, _, _) =>
                if (BPhi <? v)%float then Some 500.0%float else None
            | None => None
            end
        end
  end.

End Binary64.


Definition sample_bucket : Bucket :=
  {| timestamp := 2 * hour;
     index_by_pollutant := [("pm25", Some (1575400 # 23300))];
     aqi_max := Some (1575400 # 23300);
     aqi_cat := "Moderate" |}.

(** One PM2.5 reading between two breakpoints of the table. *)
Definition gap_readings : list Reading :=
  [ {| r_city := Some "Kuwait City"; r_station := Some "S1";
       r_datetime_local := Some 0; r_pollutant := "pm25";
       r_value := Some 12.05%Q |} ].

(** Four hourly PM2.5 readings: 12.0, 35.4 and 55.4 are the upper ends of
    the first three breakpoints, with the indices 50, 100 and 150, and
    12.05 lies between two breakpoints and has no index. *)
Definition exceedance_readings : list Reading :=
  [ {| r_city := Some "Kuwait City"; r_station := Some "S1";
       r_datetime_local := Some 0; r_pollutant := "pm25";
       r_value := Some 12.0%Q |};
    {| r_city := Some "Kuwait City"; r_station := Some "S1";
       r_datetime_local := Some hour; r_pollutant := "pm25";
       r_value := Some 12.05%Q |};
    {| r_city := Some "Kuwait City"; r_station := Some "S1";
       r_datetime_local := Some (2 * hour); r_pollutant := "pm25";
       r_value := Some 35.4%Q |};
    {| r_city := Some "Kuwait City"; r_station := Some "S1";
       r_datetime_local := Some (3 * hour); r_pollutant := "pm25";
       r_value := Some 55.4%Q |} ].

(** ** Invariants of a breakpoint table, as checkable predicates *)

(** [R] holds between every breakpoint and its successor. *)
Fixpoint adjacent_all (R : Breakpoint → Breakpoint → bool)
    (table : list Breakpoint) : bool :=
  match table with
  | b1 :: (b2 :: _) as rest => R b1 b2 && adjacent_all R rest
  | _ => true
  end.

(** Each range is non-degenerate and every range starts strictly above the
    end of the one before, in concentration and in index. *)
Definition strictly_increasing (table : list Breakpoint) : bool :=
  forallb (λ b, Qltb (BPlo b) (BPhi b) && Qltb (Ilo b) (Ihi b)) table
  && adjacent_all
       (λ b1 b2, Qltb (BPhi b1) (BPlo b2) && Qltb (Ihi b1) (Ilo b2)) table.

(** Adjacent breakpoints meet in one concentration value. *)
Definition shares_boundaries (table : list Breakpoint) : bool :=
  adjacent_all (λ b1 b2, Qeq_bool (BPhi b1) (BPlo b2)) table.

(** The distance between one range and the next: the resolution at which
    the table of a pollutant is written. *)
Definition table_step (pollutant : string) : Q :=
  if String.eqb pollutant "pm25" then 0.1%Q else 1%Q.

Definition consecutive (pollutant : string) (table : list Breakpoint) : bool :=
  adjacent_all
    (λ b1 b2, Qeq_bool (BPlo b2) (BPhi b1 + table_step pollutant)
              && Qeq_bool (Ilo b2) (Ihi b1 + 1)) table.

(** An index lies in one of the category bands. *)
Definition in_band (a : Q) : Prop :=
  ∃ lo hi name, (lo, hi, name) ∈ AQI_CATEGORY ∧ (lo <= a)%Q ∧ (a <= hi)%Q.

(** * Properties *)

(** ** Boolean comparisons reflect the order on [Q] *)

Lemma Qleb_true (x y : Q) : Qleb x y = true ↔ (x <= y)%Q.
Proof. apply Qle_bool_iff. Qed.

Lemma Qleb_false (x y : Q) : Qleb x y = false ↔ (y < x)%Q.
Proof.
  rewrite <- not_true_iff_false, Qleb_true. split.
  - apply Qnot_le_lt.
  - apply Qlt_not_le.
Qed.

Lemma Qltb_true (x y : Q) : Qltb x y = true ↔ (x < y)%Q.
Proof. unfold Qltb. rewrite negb_true_iff. apply Qleb_false. Qed.

Lemma Qltb_false (x y : Q) : Qltb x y = false ↔ (y <= x)%Q.
Proof. unfold Qltb. rewrite negb_false_iff. apply Qleb_true. Qed.

Lemma between_true (lo v hi : Q) :
  between lo v hi = true ↔ (lo <= v)%Q ∧ (v <= hi)%Q.
Proof. unfold between. rewrite andb_true_iff, !Qleb_true. tauto. Qed.

Lemma between_false (lo v hi : Q) :
  between lo v hi = false ↔ ¬ ((lo <= v)%Q ∧ (v <= hi)%Q).
Proof. rewrite <- between_true. symmetry. apply not_true_iff_false. Qed.

(** ** The table scan *)

Lemma scan_table_none (table : list Breakpoint) (v : Q) :
  scan_table table v = None ↔
  ∀ b, b ∈ table → between (BPlo b) v (BPhi b) = false.
Proof.
  induction table as [|b rest IH]; simpl.
  - split; [intros _ b Hb; inversion Hb | done].
  - destruct (between (BPlo b) v (BPhi b)) eqn:Hb.
    + split; [done |]. intros H. rewrite H in Hb; [done |].
      apply list_elem_of_here.
    + rewrite IH. split.
      * intros H b' Hb'. apply elem_of_cons in Hb' as [-> | Hb']; auto.
      * intros H b' Hb'. apply H. by apply list_elem_of_further.
Qed.

(** The loop returns at the first breakpoint that contains the value. *)
Lemma scan_table_first (table : list Breakpoint) (v : Q) (i : nat)
    (b : Breakpoint) :
  table !! i = Some b →
  between (BPlo b) v (BPhi b) = true →
  (∀ j b', (j < i)%nat → table !! j = Some b' →
           between (BPlo b') v (BPhi b') = false) →
  scan_table table v = Some (interpolate b v).
Proof.
  revert i. induction table as [|b0 rest IH]; intros i Hi Hb Hfirst.
  - by rewrite lookup_nil in Hi.
  - destruct i as [|i]; simpl in *.
    + injection Hi as ->. by rewrite Hb.
    + rewrite (Hfirst 0%nat b0); [| lia | done].
      apply (IH i); [done .. |].
      intros j b' Hj Hb'. apply (Hfirst (S j) b'); [lia | done].
Qed.

(** Some breakpoint contains the value: there is a first one. *)
Lemma first_match_exists (table : list Breakpoint) (v : Q) :
  (∃ b, b ∈ table ∧ between (BPlo b) v (BPhi b) = true) →
  ∃ i b, table !! i = Some b ∧ between (BPlo b) v (BPhi b) = true ∧
         ∀ j b', (j < i)%nat → table !! j = Some b' →
                 between (BPlo b') v (BPhi b') = false.
Proof.
  induction table as [|b0 rest IH]; intros (b & Hin & Hb).
  - inversion Hin.
  - destruct (between (BPlo b0) v (BPhi b0)) eqn:H0.
    + exists 0%nat, b0. repeat split; [done |]. intros j b' Hj. lia.
    + apply elem_of_cons in Hin as [-> | Hin]; [congruence |].
      destruct IH as (i & b1 & Hi & Hb1 & Hfirst); [by exists b |].
      exists (S i), b1. repeat split; [done .. |].
      intros [|j] b' Hj Hb'; simpl in Hb'.
      * by injection Hb' as <-.
      * apply (Hfirst j); [lia | done].
Qed.

Lemma AQI_TABLE_lookup (p : string) (table : list Breakpoint) :
  AQI_TABLE !! p = Some table →
  (p = "pm25" ∧ table = pm25_table) ∨ (p = "o3" ∧ table = o3_table).
Proof.
  unfold AQI_TABLE. intros H.
  apply lookup_insert_Some in H as [[<- <-] | [_ H]]; [by left |].
  apply lookup_insert_Some in H as [[<- <-] | [_ H]]; [by right |].
  by rewrite lookup_empty in H.
Qed.

Lemma AQI_TABLE_pm25 : AQI_TABLE !! "pm25" = Some pm25_table.
Proof. reflexivity. Qed.

Lemma AQI_TABLE_o3 : AQI_TABLE !! "o3" = Some o3_table.
Proof. reflexivity. Qed.

(** ** The classifier *)

(** Membership of a row in a table that is written out. *)
Ltac elem_of_table :=
  repeat first [apply list_elem_of_here | apply list_elem_of_further].

Lemma scan_category_Some (bands : list (Q * Q * string)) (a : Q)
    (name : string) :
  scan_category bands a = Some name →
  ∃ lo hi, (lo, hi, name) ∈ bands ∧ (lo <= a)%Q ∧ (a <= hi)%Q.
Proof.
  induction bands as [|[[lo hi] n] rest IH]; simpl; [done |].
  destruct (between lo a hi) eqn:Hb.
  - intros [= <-]. apply between_true in Hb. exists lo, hi.
    split; [apply list_elem_of_here | done].
  - intros H. destruct (IH H) as (lo' & hi' & Hin & Hr).
    exists lo', hi'. split; [by apply list_elem_of_further | done].
Qed.

Lemma scan_category_None (bands : list (Q * Q * string)) (a : Q) :
  scan_category bands a = None ↔
  ∀ lo hi name, (lo, hi, name) ∈ bands → ¬ ((lo <= a)%Q ∧ (a <= hi)%Q).
Proof.
  induction bands as [|[[lo hi] n] rest IH]; simpl.
  - split; [intros _ lo hi name H; inversion H | done].
  - destruct (between lo a hi) eqn:Hb.
    + split; [done |]. intros H. apply between_true in Hb.
      exfalso. apply (H lo hi n); [apply list_elem_of_here | done].
    + rewrite IH. apply between_false in Hb. split.
      * intros H lo' hi' n' Hin.
        apply elem_of_cons in Hin as [[= -> -> ->] | Hin]; eauto.
      * intros H lo' hi' n' Hin. apply (H lo' hi' n').
        by apply list_elem_of_further.
Qed.

Lemma band_names_are_labels (lo hi : Q) (name : string) :
  (lo, hi, name) ∈ AQI_CATEGORY → name ≠ no_category.
Proof.
  unfold AQI_CATEGORY. rewrite !elem_of_cons, elem_of_nil.
  intros H. repeat (destruct H as [[= _ _ ->] | H]; [done |]). done.
Qed.

Lemma aqi_category_marker (aqi : option Q) :
  aqi_category aqi = no_category ↔
  aqi = None ∨ ∃ a, aqi = Some a ∧ ¬ in_band a.
Proof.
  destruct aqi as [a|]; [| split; [by left | done]].
  unfold aqi_category.
  destruct (scan_category AQI_CATEGORY a) as [name|] eqn:Hs; cbn [default from_option id].
  - destruct (scan_category_Some _ _ _ Hs) as (lo & hi & Hin & Hr).
    split.
    + intros ->. by destruct (band_names_are_labels _ _ _ Hin).
    + intros [[=] | (a' & [= <-] & Hno)]. destruct Hno. by exists lo, hi, name.
  - split; [| done]. intros _. right. exists a. split; [done |].
    intros (lo & hi & name & Hin & Hr).
    by apply (proj1 (scan_category_None _ _) Hs lo hi name).
Qed.

Lemma integers_in_band (n : Z) : 0 ≤ n ≤ 500 → in_band (inject_Z n).
Proof.
  intros Hn. unfold in_band, AQI_CATEGORY.
  assert (n ≤ 50 ∨ 51 ≤ n ≤ 100 ∨ 101 ≤ n ≤ 150 ∨ 151 ≤ n ≤ 200
          ∨ 201 ≤ n ≤ 300 ∨ 301 ≤ n) as Hcase by lia.
  destruct Hcase as [H | [H | [H | [H | [H | H]]]]].
  - exists 0%Q, 50%Q, "Good".
    split; [elem_of_table | unfold Qle; simpl; lia].
  - exists 51%Q, 100%Q, "Moderate".
    split; [elem_of_table | unfold Qle; simpl; lia].
  - exists 101%Q, 150%Q, "Unhealthy for Sensitive Groups".
    split; [elem_of_table | unfold Qle; simpl; lia].
  - exists 151%Q, 200%Q, "Unhealthy".
    split; [elem_of_table | unfold Qle; simpl; lia].
  - exists 201%Q, 300%Q, "Very Unhealthy".
    split; [elem_of_table | unfold Qle; simpl; lia].
  - exists 301%Q, 500%Q, "Hazardous".
    split; [elem_of_table | unfold Qle; simpl; lia].
Qed.

Lemma outside_not_in_band (a : Q) : (a < 0)%Q ∨ (500 < a)%Q → ¬ in_band a.
Proof.
  intros Hout (lo & hi & name & Hin & Hlo & Hhi). revert Hin.
  unfold AQI_CATEGORY. rewrite !elem_of_cons, elem_of_nil.
  intros H.
  repeat (destruct H as [[= -> -> _] | H]; [lra |]). done.
Qed.

(** C3 (as stated, refuted): the index 50.5 lies in [0, 500], yet the
    classifier returns the placeholder for it: between two consecutive
    bands of [AQI_CATEGORY] there is a gap. *)
Lemma category_gap_counterexample :
  (0 <= 50.5)%Q ∧ (50.5 <= 500)%Q ∧
  aqi_category (Some 50.5%Q) = no_category.
Proof. repeat split; try discriminate. Qed.

(** C3 (amended): [aqi_category] returns the label of a band, never the
    placeholder, for every index that lies in one of the bands of
    [AQI_CATEGORY], in particular for every integer index of [0, 500]; it
    returns the placeholder exactly when the index is undefined or lies in
    no band, which includes every index outside [0, 500]. *)
Theorem aqi_category_labels_the_bands :
  (∀ a : Q, in_band a →
     aqi_category (Some a) ≠ no_category ∧
     ∃ lo hi, (lo, hi, aqi_category (Some a)) ∈ AQI_CATEGORY
              ∧ (lo <= a)%Q ∧ (a <= hi)%Q) ∧
  (∀ n : Z, 0 ≤ n ≤ 500 → aqi_category (Some (inject_Z n)) ≠ no_category) ∧
  (∀ aqi : option Q,
     aqi_category aqi = no_category ↔
     aqi = None ∨ ∃ a, aqi = Some a ∧ ¬ in_band a) ∧
  (∀ a : Q, (a < 0)%Q ∨ (500 < a)%Q → aqi_category (Some a) = no_category).
Proof.
  assert (∀ a, in_band a → aqi_category (Some a) ≠ no_category) as Hlabel.
  { intros a Ha Hm. apply aqi_category_marker in Hm as [[=] | (a' & [= <-] & Hno)].
    by destruct Hno. }
  split; [| split; [| split]].
  - intros a Ha. split; [by apply Hlabel |].
    specialize (Hlabel a Ha). unfold aqi_category in *.
    destruct (scan_category AQI_CATEGORY a) as [name|] eqn:Hs; cbn [default from_option id] in *.
    + by apply scan_category_Some.
    + done.
  - intros n Hn. apply Hlabel. by apply integers_in_band.
  - apply aqi_category_marker.
  - intros a Ha. apply aqi_category_marker. right. exists a.
    split; [done |]. by apply outside_not_in_band.
Qed.

Lemma aqi_category_labels_the_bands_witness :
  in_band 75%Q ∧ aqi_category (Some 75%Q) = "Moderate" ∧
  aqi_category (Some 75%Q) ≠ no_category.
Proof.
  assert (in_band 75%Q) as Hin.
  { exists 51%Q, 100%Q, "Moderate". split.
    - unfold AQI_CATEGORY. elem_of_table.
    - split; discriminate. }
  split; [exact Hin |]. split; [reflexivity |].
  exact (proj1 (proj1 aqi_category_labels_the_bands 75%Q Hin)).
Defined.

(** ** The breakpoint tables *)

Lemma adjacent_all_lookup (R : Breakpoint → Breakpoint → bool)
    (table : list Breakpoint) (i : nat) (b1 b2 : Breakpoint) :
  adjacent_all R table = true →
  table !! i = Some b1 → table !! S i = Some b2 → R b1 b2 = true.
Proof.
  revert i. induction table as [|a [|a' rest] IH]; intros i Hall H1 H2.
  - by rewrite lookup_nil in H1.
  - destruct i; simpl in H2; by rewrite ?lookup_nil in H2.
  - cbn [adjacent_all] in Hall. apply andb_true_iff in Hall as [Hhd Htl].
    destruct i as [|i].
    + simpl in H1, H2. by injection H1 as <-; injection H2 as <-.
    + apply (IH i); done.
Qed.

Lemma strictly_increasing_tables (p : string) (table : list Breakpoint) :
  AQI_TABLE !! p = Some table →
  strictly_increasing table = true ∧ consecutive p table = true.
Proof.
  intros H. by destruct (AQI_TABLE_lookup p table H) as [[-> ->] | [-> ->]].
Qed.

(** C4 (as stated, refuted): the first two breakpoints of the PM2.5 table
    do not share a boundary value: the first range ends at 12.0 and the
    second starts at 12.1, so the table is not contiguous. *)
Lemma shared_boundary_counterexample :
  AQI_TABLE !! "pm25" = Some pm25_table ∧
  shares_boundaries pm25_table = false ∧
  ∃ b1 b2, pm25_table !! 0%nat = Some b1 ∧ pm25_table !! 1%nat = Some b2 ∧
           ¬ (BPhi b1 == BPlo b2)%Q.
Proof.
  split; [reflexivity |]. split; [reflexivity |].
  exists (0.0, 12.0, 0, 50)%Q, (12.1, 35.4, 51, 100)%Q.
  repeat split; discriminate.
Qed.

(** C4 (amended): in the breakpoint table of every pollutant each range is
    non-degenerate and the ranges are strictly increasing in concentration
    and in index, with [conc_low(i+1) > conc_high(i)] and
    [index_low(i+1) > index_high(i)]; adjacent breakpoints share no
    boundary value: the next range starts one table step above the end of
    the previous one (0.1 for PM2.5, 1 for ozone, 1 for the index). *)
Theorem breakpoints_strictly_increasing (p : string)
    (table : list Breakpoint) :
  AQI_TABLE !! p = Some table →
  (∀ b, b ∈ table → (BPlo b < BPhi b)%Q ∧ (Ilo b < Ihi b)%Q) ∧
  (∀ i b1 b2, table !! i = Some b1 → table !! S i = Some b2 →
     (BPhi b1 < BPlo b2)%Q ∧ (Ihi b1 < Ilo b2)%Q ∧
     (BPlo b2 == BPhi b1 + table_step p)%Q ∧ (Ilo b2 == Ihi b1 + 1)%Q ∧
     ¬ (BPhi b1 == BPlo b2)%Q).
Proof.
  intros Hp. destruct (strictly_increasing_tables p table Hp) as [Hinc Hcons].
  apply andb_true_iff in Hinc as [Hrows Hadj]. split.
  - intros b Hb. rewrite forallb_forall in Hrows.
    apply list_elem_of_In, Hrows, andb_true_iff in Hb as [H1 H2].
    by apply Qltb_true in H1, H2.
  - intros i b1 b2 H1 H2.
    pose proof (adjacent_all_lookup _ _ _ _ _ Hadj H1 H2) as Hlt.
    pose proof (adjacent_all_lookup _ _ _ _ _ Hcons H1 H2) as Heq.
    cbv beta in Hlt, Heq.
    apply andb_true_iff in Hlt as [Hc Hi], Heq as [Hc' Hi'].
    apply Qltb_true in Hc, Hi. apply Qeq_bool_iff in Hc', Hi'.
    repeat split; try done. intros Heq. rewrite Heq in Hc.
    by apply Qlt_irrefl in Hc.
Qed.

Lemma breakpoints_strictly_increasing_witness :
  AQI_TABLE !! "o3" = Some o3_table ∧
  (BPhi (0, 54, 0, 50) < BPlo (55, 70, 51, 100))%Q ∧
  (Ihi (0, 54, 0, 50) < Ilo (55, 70, 51, 100))%Q.
Proof.
  split; [reflexivity |].
  destruct (breakpoints_strictly_increasing "o3" o3_table eq_refl) as [_ H].
  destruct (H 0%nat (0, 54, 0, 50)%Q (55, 70, 51, 100)%Q eq_refl eq_refl)
    as (H1 & H2 & _).
  split; [exact H1 | exact H2].
Defined.

(** ** The AQI of one concentration *)

(** C5: for a known pollutant and a concentration inside some breakpoint
    of its table, [compute_aqi_for_value] returns the linear interpolation
    [(Ihi - Ilo) / (BPhi - BPlo) * (value - BPlo) + Ilo] of the first
    breakpoint, in table order, with [BPlo <= value <= BPhi]; at the
    breakpoint boundaries 12.0 and 35.4 of PM2.5 the result is 50 and
    100. *)
Theorem compute_aqi_interpolates_first_breakpoint :
  (∀ (p : string) (table : list Breakpoint) (v : Q),
     AQI_TABLE !! p = Some table →
     (∃ b, b ∈ table ∧ (BPlo b <= v)%Q ∧ (v <= BPhi b)%Q) →
     ∃ i b,
       table !! i = Some b ∧ (BPlo b <= v)%Q ∧ (v <= BPhi b)%Q ∧
       (∀ j b', (j < i)%nat → table !! j = Some b' →
                ¬ ((BPlo b' <= v)%Q ∧ (v <= BPhi b')%Q)) ∧
       compute_aqi_for_value p (Some v) =
         Some ((Ihi b - Ilo b) / (BPhi b - BPlo b) * (v - BPlo b) + Ilo b)%Q) ∧
  (∃ aqi, compute_aqi_for_value "pm25" (Some 12.0%Q) = Some aqi
          ∧ (aqi == 50)%Q) ∧
  (∃ aqi, compute_aqi_for_value "pm25" (Some 35.4%Q) = Some aqi
          ∧ (aqi == 100)%Q).
Proof.
  split; [| split].
  - intros p table v Hp (b & Hin & Hlo & Hhi).
    destruct (first_match_exists table v) as (i & b1 & Hi & Hb1 & Hfirst).
    { exists b. split; [done |]. by apply between_true. }
    exists i, b1. pose proof Hb1 as Hb1'. apply between_true in Hb1' as [? ?].
    repeat split; try done.
    + intros j b' Hj Hb'. apply between_false. by apply (Hfirst j).
    + unfold compute_aqi_for_value. rewrite Hp. cbn [default from_option id].
      by rewrite (scan_table_first table v i b1 Hi Hb1 Hfirst).
  - eexists. split; [vm_compute; reflexivity | reflexivity].
  - eexists. split; [vm_compute; reflexivity | reflexivity].
Qed.

Lemma compute_aqi_interpolates_first_breakpoint_witness :
  AQI_TABLE !! "o3" = Some o3_table ∧
  (∃ b, b ∈ o3_table ∧ (BPlo b <= 60)%Q ∧ (60 <= BPhi b)%Q) ∧
  ∃ i b, o3_table !! i = Some b ∧
         compute_aqi_for_value "o3" (Some 60%Q) =
           Some ((Ihi b - Ilo b) / (BPhi b - BPlo b) * (60 - BPlo b) + Ilo b)%Q.
Proof.
  assert (∃ b, b ∈ o3_table ∧ (BPlo b <= 60)%Q ∧ (60 <= BPhi b)%Q) as Hin.
  { exists (55, 70, 51, 100)%Q. split; [unfold o3_table; elem_of_table |].
    split; discriminate. }
  split; [reflexivity |]. split; [exact Hin |].
  destruct (proj1 compute_aqi_interpolates_first_breakpoint
              "o3" o3_table 60%Q eq_refl Hin) as (i & b & Hi & _ & _ & _ & Hr).
  exists i, b. split; [exact Hi | exact Hr].
Defined.

(** In binary64 the interpolation is exact at the examples of the
    specification and at the upper end of every breakpoint: the index
    computed there is the integer [Ihi] of the table. *)
Example binary64_boundaries :
  Binary64.compute_aqi_for_value "pm25" (Some 12.0%float) = Some 50%float ∧
  Binary64.compute_aqi_for_value "pm25" (Some 35.4%float) = Some 100%float ∧
  Binary64.compute_aqi_for_value "pm25" (Some 600.0%float) = Some 500%float ∧
  Binary64.compute_aqi_for_value "pm25" (Some (-5.0)%float) = None ∧
  Forall (λ b : Binary64.Breakpoint,
            Binary64.compute_aqi_for_value "pm25" (Some b.1.1.2) = Some b.2)
         Binary64.pm25_table ∧
  Forall (λ b : Binary64.Breakpoint,
            Binary64.compute_aqi_for_value "o3" (Some b.1.1.2) = Some b.2)
         Binary64.o3_table.
Proof.
  repeat split; try (vm_compute; reflexivity);
    repeat (constructor; [vm_compute; reflexivity |]); constructor.
Qed.

(** ** Saturation above the table, nothing below it *)

Lemma strictly_increasing_cons (a : Breakpoint) (rest : list Breakpoint) :
  strictly_increasing (a :: rest) = true →
  (BPlo a < BPhi a)%Q ∧ strictly_increasing rest = true.
Proof.
  unfold strictly_increasing. cbn [forallb].
  rewrite !andb_true_iff, Qltb_true. intros [[[Ha _] Hrows] Hadj].
  split; [done |]. split; [done |].
  destruct rest as [|a' rest]; [done |].
  cbn [adjacent_all] in Hadj. by apply andb_true_iff in Hadj as [_ ?].
Qed.

(** Every later range lies strictly above an earlier one. *)
Lemma strictly_increasing_head (a : Breakpoint) (rest : list Breakpoint)
    (b : Breakpoint) :
  strictly_increasing (a :: rest) = true → b ∈ rest → (BPhi a < BPlo b)%Q.
Proof.
  revert a. induction rest as [|a' rest IH]; intros a Hinc Hb.
  - inversion Hb.
  - pose proof (strictly_increasing_cons _ _ Hinc) as [_ Hrest].
    assert (BPhi a < BPlo a')%Q as Hstep.
    { unfold strictly_increasing in Hinc. cbn [adjacent_all] in Hinc.
      rewrite !andb_true_iff in Hinc. apply Qltb_true. tauto. }
    apply elem_of_cons in Hb as [-> | Hb]; [done |].
    pose proof (strictly_increasing_cons _ _ Hrest) as [Ha' _].
    specialize (IH a' Hrest Hb). lra.
Qed.

Lemma below_last (table : list Breakpoint) (bl b : Breakpoint) :
  strictly_increasing table = true → last table = Some bl → b ∈ table →
  (BPlo b < BPhi b)%Q ∧ (BPhi b <= BPhi bl)%Q.
Proof.
  revert b. induction table as [|a rest IH]; intros b Hinc Hlast Hb;
    [inversion Hb |].
  pose proof (strictly_increasing_cons _ _ Hinc) as [Ha Hrest].
  destruct rest as [|a' rest].
  - injection Hlast as <-. apply list_elem_of_singleton in Hb as ->.
    split; [done | lra].
  - rewrite last_cons_cons in Hlast.
    apply elem_of_cons in Hb as [-> | Hb]; [| by apply IH].
    split; [done |].
    assert (bl ∈ a' :: rest) as Hbl by (by apply last_Some_elem_of).
    pose proof (strictly_increasing_head _ _ _ Hinc Hbl).
    destruct (IH bl Hrest Hlast Hbl). lra.
Qed.

Lemma above_first (table : list Breakpoint) (b0 b : Breakpoint) :
  strictly_increasing table = true → head table = Some b0 → b ∈ table →
  (BPlo b0 <= BPlo b)%Q.
Proof.
  destruct table as [|a rest]; intros Hinc Hhead Hb; [done |].
  injection Hhead as <-.
  apply elem_of_cons in Hb as [-> | Hb]; [lra |].
  pose proof (strictly_increasing_cons _ _ Hinc) as [Ha _].
  pose proof (strictly_increasing_head _ _ _ Hinc Hb). lra.
Qed.

(** C6: above the highest breakpoint of a pollutant's table the result is
    the fixed ceiling 500; below the lowest breakpoint (negative values
    included) the result is undefined, with no floor saturation; so
    600.0 gives 500 and -5.0 gives no index for PM2.5. *)
Theorem compute_aqi_outside_the_table :
  (∀ (p : string) (table : list Breakpoint) (b : Breakpoint) (v : Q),
     AQI_TABLE !! p = Some table → last table = Some b → (BPhi b < v)%Q →
     compute_aqi_for_value p (Some v) = Some 500%Q) ∧
  (∀ (p : string) (table : list Breakpoint) (b : Breakpoint) (v : Q),
     AQI_TABLE !! p = Some table → head table = Some b → (v < BPlo b)%Q →
     compute_aqi_for_value p (Some v) = nan) ∧
  compute_aqi_for_value "pm25" (Some 600.0%Q) = Some 500%Q ∧
  compute_aqi_for_value "pm25" (Some (-5.0)%Q) = nan.
Proof.
  split; [| split; [| split; reflexivity]].
  - intros p table b v Hp Hlast Hv.
    destruct (strictly_increasing_tables p table Hp) as [Hinc _].
    unfold compute_aqi_for_value. rewrite Hp. cbn [default from_option id].
    assert (scan_table table v = None) as ->.
    { apply scan_table_none. intros b' Hb'. apply between_false.
      destruct (below_last table b b' Hinc Hlast Hb'). lra. }
    unfold above_last. rewrite Hlast.
    by rewrite (proj2 (Qltb_true _ _) Hv).
  - intros p table b v Hp Hhead Hv.
    destruct (strictly_increasing_tables p table Hp) as [Hinc _].
    unfold compute_aqi_for_value. rewrite Hp. cbn [default from_option id].
    assert (scan_table table v = None) as ->.
    { apply scan_table_none. intros b' Hb'. apply between_false.
      pose proof (above_first table b b' Hinc Hhead Hb'). lra. }
    unfold above_last. destruct (last table) as [bl|] eqn:Hlast; [| done].
    assert (bl ∈ table) as Hbl by (by apply last_Some_elem_of).
    destruct (below_last table bl bl Hinc Hlast Hbl).
    pose proof (above_first table b bl Hinc Hhead Hbl).
    assert (Qltb (BPhi bl) v = false) as ->; [| done].
    apply Qltb_false. lra.
Qed.

Lemma compute_aqi_outside_the_table_witness :
  (AQI_TABLE !! "o3" = Some o3_table ∧
   last o3_table = Some (106, 200, 201, 300)%Q ∧
   (BPhi (106, 200, 201, 300) < 250)%Q ∧
   compute_aqi_for_value "o3" (Some 250%Q) = Some 500%Q) ∧
  (AQI_TABLE !! "o3" = Some o3_table ∧
   head o3_table = Some (0, 54, 0, 50)%Q ∧
   (-1 < BPlo (0, 54, 0, 50))%Q ∧
   compute_aqi_for_value "o3" (Some (-1)%Q) = nan).
Proof.
  split.
  - split; [reflexivity |]. split; [reflexivity |]. split; [reflexivity |].
    apply (proj1 compute_aqi_outside_the_table
             "o3" o3_table (106, 200, 201, 300)%Q 250%Q);
      reflexivity.
  - split; [reflexivity |]. split; [reflexivity |]. split; [reflexivity |].
    apply (proj1 (proj2 compute_aqi_outside_the_table)
             "o3" o3_table (0, 54, 0, 50)%Q (-1)%Q);
      reflexivity.
Defined.

(** C10: a pollutant code without an entry in [AQI_TABLE] has no index,
    whatever the concentration: the ceiling 500 needs a non-empty table
    and is never applied to an unknown pollutant. *)
Theorem unknown_pollutant_has_no_index (p : string) (v : Q) :
  AQI_TABLE !! p = None → compute_aqi_for_value p (Some v) = nan.
Proof.
  intros Hp. unfold compute_aqi_for_value. by rewrite Hp.
Qed.

Lemma unknown_pollutant_has_no_index_witness :
  AQI_TABLE !! "no2" = None ∧
  compute_aqi_for_value "no2" (Some 1000000%Q) = nan.
Proof.
  split; [reflexivity |].
  apply (unknown_pollutant_has_no_index "no2" 1000000%Q). reflexivity.
Defined.

(** ** Exceedance rate *)

Lemma exceeds_true (threshold : Q) (x : option Q) :
  exceeds threshold x = true ↔ ∃ a, x = Some a ∧ (threshold <= a)%Q.
Proof.
  destruct x as [a|]; simpl.
  - rewrite Qleb_true. split.
    + intros Ha. by exists a.
    + by intros (a' & [= <-] & Ha).
  - split; [done |]. by intros (a & [=] & _).
Qed.

Lemma notna_any_true (s : list (option Q)) :
  notna_any s = true ↔ ∃ a, Some a ∈ s.
Proof.
  unfold notna_any. rewrite existsb_exists. split.
  - intros (x & Hin & Hx). apply bool_decide_eq_true in Hx as [a ->].
    exists a. by apply list_elem_of_In.
  - intros (a & Hin). exists (Some a). split; [by apply list_elem_of_In |].
    by apply bool_decide_eq_true.
Qed.

Lemma notna_any_false (s : list (option Q)) :
  notna_any s = false ↔ ∀ x, x ∈ s → x = None.
Proof.
  rewrite <- not_true_iff_false, notna_any_true. split.
  - intros Hno [a|] Hin; [| done]. destruct Hno. by exists a.
  - intros Hall (a & Hin). by specialize (Hall _ Hin).
Qed.

Lemma inject_nat_S (n : nat) :
  (inject_Z (Z.of_nat (S n)) == 1 + inject_Z (Z.of_nat n))%Q.
Proof.
  rewrite Nat2Z.inj_succ, <- Z.add_1_l, inject_Z_plus. reflexivity.
Qed.

(** C1: the exceedance rate at the input of the claim.  With the overall
    indices 50, 100, 150 and one bucket without index, and the threshold
    100, two of the three buckets that have an index reach the threshold,
    yet the rate is 50 percent and not two thirds: the mean of the mask
    divides by all four buckets.  On the same buckets the average index,
    computed one line earlier, leaves the bucket without index out: it is
    100, the mean of the three.  The same happens on the frame the
    callback builds from four hourly readings of which one has no index. *)
Theorem exceed_rate_counts_undefined_bucket :
  (∃ r,
     exceed_rate [overall 0 (Some 50%Q); overall 1 (Some 100%Q);
                  overall 2 (Some 150%Q); overall 3 None] (Some 100%Q)
       = Some r ∧
     (r == 50)%Q ∧ ¬ (r == 100 * (2 / 3))%Q ∧ ¬ (r == 2 / 3)%Q) ∧
  (∃ m,
     avg_aqi [overall 0 (Some 50%Q); overall 1 (Some 100%Q);
              overall 2 (Some 150%Q); overall 3 None] = Some m ∧
     (m == (50 + 100 + 150) / 3)%Q) ∧
  (let aqi_df := aqi_frame ["pm25"] (concentrations exceedance_readings "H") in
   length aqi_df = 4%nat ∧
   length (dropna_values (aqi_max <$> aqi_df)) = 3%nat ∧
   length (filter (λ b, exceeds 100 (aqi_max b)) aqi_df) = 2%nat ∧
   ∃ r, exceed_rate aqi_df (Some 100%Q) = Some r ∧
        (r == 50)%Q ∧ ¬ (r == 100 * (2 / 3))%Q).
Proof.
  split; [| split].
  - eexists. split; [vm_compute; reflexivity |].
    repeat split; discriminate.
  - eexists. split; [vm_compute; reflexivity | reflexivity].
  - cbv zeta. split; [by vm_compute |]. split; [by vm_compute |].
    split; [by vm_compute |].
    eexists. split; [vm_compute; reflexivity |].
    split; [reflexivity | discriminate].
Qed.

(** ** The worst period *)

Lemma idxmax_None {L : Type} (s : list (L * option Q)) :
  idxmax s = None ↔ ∀ l x, (l, x) ∈ s → x = None.
Proof.
  induction s as [|[l0 x0] rest IH]; cbn [idxmax].
  - split; [intros _ l x H; inversion H | done].
  - destruct x0 as [a0|].
    + split.
      * destruct (idxmax rest) as [[l' a']|]; [| done].
        by destruct (Qltb a0 a').
      * intros H. by specialize (H l0 (Some a0) (list_elem_of_here _ _)).
    + rewrite IH. split.
      * intros H l x Hin. apply elem_of_cons in Hin as [[= -> ->] | Hin]; eauto.
      * intros H l x Hin. apply (H l). by apply list_elem_of_further.
Qed.

(** [idxmax] returns the first occurrence of the maximum: everything
    before it is strictly smaller, nothing after it is larger. *)
Lemma idxmax_Some {L : Type} (s : list (L * option Q)) (l : L) (a : Q) :
  idxmax s = Some (l, a) →
  ∃ s1 s2,
    s = s1 ++ (l, Some a) :: s2 ∧
    (∀ l' a', (l', Some a') ∈ s1 → (a' < a)%Q) ∧
    (∀ l' a', (l', Some a') ∈ s2 → (a' <= a)%Q).
Proof.
  revert l a. induction s as [|[l0 x0] rest IH]; intros l a; cbn [idxmax];
    [done |].
  destruct x0 as [a0|].
  - destruct (idxmax rest) as [[l' a']|] eqn:Hrest.
    + destruct (IH l' a' eq_refl) as (s1 & s2 & -> & Hbefore & Hafter).
      destruct (Qltb a0 a') eqn:Hlt; intros [= <- <-].
      * apply Qltb_true in Hlt. exists ((l0, Some a0) :: s1), s2.
        split; [done |]. split; [| done].
        intros l a Hin. apply elem_of_cons in Hin as [[= -> ->] | Hin]; eauto.
      * apply Qltb_false in Hlt. exists [], (s1 ++ (l', Some a') :: s2).
        split; [done |]. split; [intros ?? Hin; inversion Hin |].
        intros l a Hin. apply elem_of_app in Hin as [Hin | Hin].
        { specialize (Hbefore _ _ Hin). lra. }
        apply elem_of_cons in Hin as [[= -> ->] | Hin]; [done |].
        specialize (Hafter _ _ Hin). lra.
    + intros [= <- <-]. exists [], rest.
      split; [done |]. split; [intros ?? Hin; inversion Hin |].
      intros l a Hin. by apply (proj1 (idxmax_None rest) Hrest) in Hin.
  - intros Hrest. destruct (IH l a Hrest) as (s1 & s2 & -> & Hbefore & Hafter).
    exists ((l0, None) :: s1), s2. split; [done |]. split; [| done].
    intros l' a' Hin. apply elem_of_cons in Hin as [[=] | Hin]; eauto.
Qed.

Lemma StronglySorted_lt_NoDup (l : list Z) :
  StronglySorted Z.lt l → NoDup l.
Proof.
  induction 1 as [|x l Hl IH Hx]; constructor; [| done].
  intros Hin. rewrite Forall_forall in Hx. specialize (Hx x Hin). lia.
Qed.

(** With unique timestamps, [loc] reads the bucket that carries the
    label. *)
Lemma loc_aqi_max_unique (aqi_df : list Bucket) (b : Bucket) :
  NoDup (timestamp <$> aqi_df) → b ∈ aqi_df →
  loc_aqi_max aqi_df (timestamp b) = aqi_max b.
Proof.
  intros Hnd Hb. unfold loc_aqi_max.
  destruct (list_find (λ b0, timestamp b0 = timestamp b) aqi_df)
    as [[i b']|] eqn:Hfind.
  - apply list_find_Some in Hfind as (Hi & Heq & _).
    apply list_elem_of_lookup_2 in Hi.
    clear -Hnd Hb Hi Heq. induction aqi_df as [|c rest IH]; [inversion Hb |].
    cbn [fmap list_fmap] in Hnd. apply NoDup_cons in Hnd as [Hc Hnd].
    apply elem_of_cons in Hb as [-> | Hb], Hi as [-> | Hi]; try done.
    + destruct Hc. rewrite <- Heq. by apply list_elem_of_fmap_2.
    + destruct Hc. rewrite Heq. by apply list_elem_of_fmap_2.
    + by apply IH.
  - apply list_find_None in Hfind. rewrite Forall_forall in Hfind.
    by destruct (Hfind b Hb).
Qed.

(** The rows of the concentrations frame, hence the buckets of [aqi_df],
    are in strictly increasing order of time. *)
Lemma StronglySorted_seqZ (m n : Z) : StronglySorted Z.lt (seqZ m n).
Proof.
  remember (Z.to_nat n) as k eqn:Hk. revert m n Hk.
  induction k as [|k IH]; intros m n Hk.
  - rewrite seqZ_nil by lia. constructor.
  - rewrite seqZ_cons by lia. constructor; [apply IH; lia |].
    apply Forall_seqZ. intros m' Hm'. lia.
Qed.

Lemma StronglySorted_le_lt (l : list Z) :
  StronglySorted Z.le l → NoDup l → StronglySorted Z.lt l.
Proof.
  induction 1 as [|x l Hl IH Hx]; intros Hnd; [constructor |].
  apply NoDup_cons in Hnd as [Hx' Hnd]. constructor; [by apply IH |].
  rewrite Forall_forall in *. intros y Hy. specialize (Hx y Hy).
  assert (x ≠ y) by (by intros ->). lia.
Qed.

Lemma fmap_labelled {A B : Type} (g : A → B) (l : list A) :
  ((λ x, (x, g x)) <$> l).*1 = l.
Proof. induction l as [|x l IH]; [done |]. cbn. by f_equal. Qed.

Lemma bucket_width_pos (agg : string) : 0 < bucket_width agg.
Proof.
  unfold bucket_width.
  destruct (String.eqb agg "H"); [done |]. by destruct (String.eqb agg "D").
Qed.

Lemma concentrations_increasing (dff : list Reading) (agg : string) :
  StronglySorted Z.lt ((rows (concentrations dff agg)).*1).
Proof.
  assert (StronglySorted Z.lt ((rows (pivot_table (dropna dff))).*1)) as Hpivot.
  { unfold pivot_table. cbn [rows]. rewrite fmap_labelled.
    apply StronglySorted_le_lt.
    - apply StronglySorted_merge_sort; apply _.
    - rewrite merge_sort_Permutation. apply NoDup_remove_dups. }
  unfold concentrations. destruct (is_granularity agg); [| done].
  unfold resample_mean.
  destruct (head _) as [first|]; [| done].
  destruct (last _) as [lst|]; [| done].
  cbn [rows]. rewrite <- list_fmap_compose.
  apply (StronglySorted_fmap _ Z.lt Z.lt); [| apply StronglySorted_seqZ].
  intros x y Hxy. cbn. pose proof (bucket_width_pos agg). nia.
Qed.

Lemma aqi_frame_increasing (pollutants : list string) (dff : list Reading)
    (agg : string) :
  StronglySorted Z.lt
    (timestamp <$> aqi_frame pollutants (concentrations dff agg)).
Proof.
  unfold aqi_frame. rewrite <- list_fmap_compose.
  apply concentrations_increasing.
Qed.

(** [worst] on a frame in increasing order of time. *)
Lemma worst_first_maximum (aqi_df : list Bucket) :
  StronglySorted Z.lt (timestamp <$> aqi_df) →
  (worst aqi_df = None ↔ ∀ b, b ∈ aqi_df → aqi_max b = None) ∧
  (∀ t v, worst aqi_df = Some (t, v) →
     (∃ b, b ∈ aqi_df ∧ timestamp b = t ∧ aqi_max b = Some v) ∧
     (∀ b' v', b' ∈ aqi_df → aqi_max b' = Some v' → (v' <= v)%Q) ∧
     (∀ b' v', b' ∈ aqi_df → aqi_max b' = Some v' → (v' == v)%Q →
               t ≤ timestamp b')).
Proof.
  intros Hsorted.
  pose proof (StronglySorted_lt_NoDup _ Hsorted) as Hnd.
  set (s := (λ b, (timestamp b, aqi_max b)) <$> aqi_df).
  assert (∀ b, b ∈ aqi_df → (timestamp b, aqi_max b) ∈ s) as Hs.
  { intros b Hb. by apply (list_elem_of_fmap_2 (λ b, (timestamp b, aqi_max b))). }
  assert (∀ t a, idxmax s = Some (t, a) → worst aqi_df = Some (t, a)
                 ∧ ∃ b, b ∈ aqi_df ∧ timestamp b = t ∧ aqi_max b = Some a)
    as Hfound.
  { intros t a Hmax.
    destruct (idxmax_Some s t a Hmax) as (s1 & s2 & Hsplit & _).
    assert ((t, Some a) ∈ s) as Hin.
    { rewrite Hsplit. apply elem_of_app. right. apply list_elem_of_here. }
    apply list_elem_of_fmap in Hin as (b & [= -> Ha] & Hb).
    split; [| by exists b].
    unfold worst, worst_idx. fold s.
    assert (notna_any (aqi_max <$> aqi_df) = true) as ->.
    { apply notna_any_true. exists a. rewrite Ha.
      by apply list_elem_of_fmap_2. }
    rewrite Hmax. cbn [fmap option_fmap option_map fst].
    by rewrite (loc_aqi_max_unique aqi_df b Hnd Hb), <- Ha. }
  split.
  - split.
    + intros Hnone b Hb. destruct (aqi_max b) as [a|] eqn:Ha; [| done].
      destruct (idxmax s) as [[t a']|] eqn:Hmax.
      * destruct (Hfound t a' eq_refl) as [Hw _]. congruence.
      * apply (proj1 (idxmax_None s) Hmax (timestamp b)).
        rewrite <- Ha. by apply Hs.
    + intros Hall. unfold worst, worst_idx.
      assert (notna_any (aqi_max <$> aqi_df) = false) as ->; [| done].
      apply notna_any_false. intros x Hx.
      apply list_elem_of_fmap in Hx as (b & -> & Hb). by apply Hall.
  - intros t v Hworst.
    destruct (idxmax s) as [[t0 a0]|] eqn:Hmax.
    + destruct (Hfound t0 a0 eq_refl) as [Hw Hb].
      rewrite Hw in Hworst. injection Hworst as -> ->.
      split; [done |].
      destruct (idxmax_Some s t v Hmax) as (s1 & s2 & Hsplit & Hbefore & Hafter).
      assert (∀ b' v', b' ∈ aqi_df → aqi_max b' = Some v' →
                (timestamp b', Some v') ∈ s1 ∨ (timestamp b' = t ∧ v' = v)
                ∨ (timestamp b', Some v') ∈ s2) as Hwhere.
      { intros b' v' Hb' Hv'. specialize (Hs b' Hb').
        rewrite Hv', Hsplit in Hs. apply elem_of_app in Hs as [Hs | Hs];
          [by left | right].
        apply elem_of_cons in Hs as [[= -> ->] | Hs]; [by left | by right]. }
      split.
      * intros b' v' Hb' Hv'.
        destruct (Hwhere b' v' Hb' Hv') as [H1 | [[_ ->] | H2]].
        -- specialize (Hbefore _ _ H1). lra.
        -- lra.
        -- by apply (Hafter (timestamp b')).
      * intros b' v' Hb' Hv' Heq.
        destruct (Hwhere b' v' Hb' Hv') as [H1 | [[-> _] | H2]].
        -- specialize (Hbefore _ _ H1). lra.
        -- done.
        -- assert (timestamp <$> aqi_df = s.*1) as Hts.
           { unfold s. by rewrite <- list_fmap_compose. }
           rewrite Hts, Hsplit, fmap_app, fmap_cons in Hsorted.
           apply StronglySorted_app_1_r, StronglySorted_cons in Hsorted
             as [Hlater _].
           rewrite Forall_forall in Hlater.
           assert (t < timestamp b'); [| lia].
           apply Hlater. by apply (list_elem_of_fmap_2 fst) in H2.
    + exfalso. unfold worst, worst_idx in Hworst. fold s in Hworst.
      rewrite Hmax in Hworst. by destruct (notna_any _).
Qed.

(** C8: the worst period is a bucket whose overall index is the largest
    of all defined overall indices; when several buckets reach that
    maximum it is the one with the earliest timestamp; there is no worst
    period exactly when no bucket has an overall index.  The buckets of
    [aqi_df] are in increasing order of time, as those built by the
    callback always are. *)
Theorem worst_is_earliest_maximum :
  (∀ aqi_df : list Bucket,
     StronglySorted Z.lt (timestamp <$> aqi_df) →
     (worst aqi_df = None ↔ ∀ b, b ∈ aqi_df → aqi_max b = None) ∧
     (∀ t v, worst aqi_df = Some (t, v) →
        (∃ b, b ∈ aqi_df ∧ timestamp b = t ∧ aqi_max b = Some v) ∧
        (∀ b' v', b' ∈ aqi_df → aqi_max b' = Some v' → (v' <= v)%Q) ∧
        (∀ b' v', b' ∈ aqi_df → aqi_max b' = Some v' → (v' == v)%Q →
                  t ≤ timestamp b'))) ∧
  (∀ (pollutants : list string) (dff : list Reading) (agg : string),
     StronglySorted Z.lt
       (timestamp <$> aqi_frame pollutants (concentrations dff agg))).
Proof.
  split; [apply worst_first_maximum | apply aqi_frame_increasing].
Qed.

Lemma worst_is_earliest_maximum_witness :
  StronglySorted Z.lt
    (timestamp <$> [overall 0 (Some 50%Q); overall 1 (Some 150%Q);
                    overall 2 (Some 150%Q); overall 3 None]) ∧
  worst [overall 0 (Some 50%Q); overall 1 (Some 150%Q);
         overall 2 (Some 150%Q); overall 3 None] = Some (1, 150%Q) ∧
  1 ≤ timestamp (overall 2 (Some 150%Q)).
Proof.
  assert (StronglySorted Z.lt
            (timestamp <$> [overall 0 (Some 50%Q); overall 1 (Some 150%Q);
                            overall 2 (Some 150%Q); overall 3 None])) as Hs.
  { repeat (constructor; [| repeat constructor; reflexivity]). constructor. }
  split; [exact Hs |]. split; [reflexivity |].
  destruct (proj1 worst_is_earliest_maximum _ Hs) as [_ H].
  destruct (H 1 150%Q eq_refl) as (_ & _ & Hearliest).
  apply (Hearliest (overall 2 (Some 150%Q)) 150%Q); [| reflexivity | reflexivity].
  do 2 apply list_elem_of_further. apply list_elem_of_here.
Defined.

(** ** Category distribution *)

Lemma searchsorted_left_cons (b : Q) (bins : list Q) (x : Q) :
  searchsorted_left (b :: bins) x
  = ((if Qltb b x then 1 else 0) + searchsorted_left bins x)%nat.
Proof.
  unfold searchsorted_left. rewrite filter_cons.
  destruct (Qltb b x); reflexivity.
Qed.

(** Settle every comparison of the goal by linear arithmetic. *)
Ltac settle_comparisons :=
  repeat match goal with
    | |- context [Qltb ?x ?y] =>
        first [ rewrite (proj2 (Qltb_true x y)) by lra
              | rewrite (proj2 (Qltb_false x y)) by lra ]
    end.

Lemma Qeq_bool_false (x y : Q) : ¬ (x == y)%Q → Qeq_bool x y = false.
Proof.
  intros Hne. destruct (Qeq_bool x y) eqn:H; [| done].
  by apply Qeq_bool_iff in H.
Qed.

(** The bin of an index, range by range. *)
Lemma cut_pie_bins (a : Q) :
  ((a < 0)%Q → cut pie_bins (Some a) = None) ∧
  ((0 <= a)%Q ∧ (a <= 50)%Q → cut pie_bins (Some a) = Some 0%nat) ∧
  ((50 < a)%Q ∧ (a <= 100)%Q → cut pie_bins (Some a) = Some 1%nat) ∧
  ((100 < a)%Q ∧ (a <= 150)%Q → cut pie_bins (Some a) = Some 2%nat) ∧
  ((150 < a)%Q ∧ (a <= 200)%Q → cut pie_bins (Some a) = Some 3%nat) ∧
  ((200 < a)%Q ∧ (a <= 300)%Q → cut pie_bins (Some a) = Some 4%nat) ∧
  ((300 < a)%Q ∧ (a <= 500)%Q → cut pie_bins (Some a) = Some 5%nat) ∧
  ((500 < a)%Q → cut pie_bins (Some a) = None).
Proof.
  unfold cut, pie_bins. cbn [head].
  rewrite !searchsorted_left_cons. unfold searchsorted_left at 1.
  repeat split; intros H.
  - rewrite Qeq_bool_false by lra. by settle_comparisons.
  - destruct (Qeq_bool a 0) eqn:H0; [done |].
    assert (¬ (a == 0)%Q) by (by intros ?%Qeq_bool_iff; congruence).
    by settle_comparisons.
  - rewrite Qeq_bool_false by lra. by settle_comparisons.
  - rewrite Qeq_bool_false by lra. by settle_comparisons.
  - rewrite Qeq_bool_false by lra. by settle_comparisons.
  - rewrite Qeq_bool_false by lra. by settle_comparisons.
  - rewrite Qeq_bool_false by lra. by settle_comparisons.
  - rewrite Qeq_bool_false by lra. by settle_comparisons.
Qed.

Lemma cut_pie_bins_Some (a : Q) (i : nat) :
  cut pie_bins (Some a) = Some i ↔
  ∃ lo hi, pie_bins !! i = Some lo ∧ pie_bins !! S i = Some hi ∧
           ((lo < a)%Q ∨ (i = 0%nat ∧ (a == lo)%Q)) ∧ (a <= hi)%Q.
Proof.
  destruct (cut_pie_bins a) as (C0 & C1 & C2 & C3 & C4 & C5 & C6 & C7).
  split.
  - assert ((a < 0)%Q ∨ ((0 <= a)%Q ∧ (a <= 50)%Q)
            ∨ ((50 < a)%Q ∧ (a <= 100)%Q) ∨ ((100 < a)%Q ∧ (a <= 150)%Q)
            ∨ ((150 < a)%Q ∧ (a <= 200)%Q) ∨ ((200 < a)%Q ∧ (a <= 300)%Q)
            ∨ ((300 < a)%Q ∧ (a <= 500)%Q) ∨ (500 < a)%Q) as Hcase by lra.
    destruct Hcase as [H | [H | [H | [H | [H | [H | [H | H]]]]]]].
    + by rewrite C0.
    + rewrite C1 by done. intros [= <-]. exists 0%Q, 50%Q.
      repeat split; [| lra].
      destruct (Qlt_le_dec 0 a); [by left | right; split; [done | lra]].
    + rewrite C2 by done. intros [= <-]. exists 50%Q, 100%Q.
      repeat split; [left |]; lra.
    + rewrite C3 by done. intros [= <-]. exists 100%Q, 150%Q.
      repeat split; [left |]; lra.
    + rewrite C4 by done. intros [= <-]. exists 150%Q, 200%Q.
      repeat split; [left |]; lra.
    + rewrite C5 by done. intros [= <-]. exists 200%Q, 300%Q.
      repeat split; [left |]; lra.
    + rewrite C6 by done. intros [= <-]. exists 300%Q, 500%Q.
      repeat split; [left |]; lra.
    + by rewrite C7.
  - intros (lo & hi & Hlo & Hhi & Hlow & Hle).
    do 6 (destruct i as [|i];
          [injection Hlo as <-; injection Hhi as <-;
           first [apply C1 | apply C2 | apply C3 | apply C4 | apply C5 | apply C6];
           destruct Hlow as [? | [? ?]]; first [lra | done] |]).
    destruct i; discriminate.
Qed.

Lemma filter_codes (i : nat) (aqi_df : list Bucket) :
  length (filter (λ c, c = Some i) (cat_series aqi_df))
  = length (filter (λ b, cut pie_bins (aqi_max b) = Some i) aqi_df).
Proof.
  unfold cat_series. induction aqi_df as [|b rest IH]; [done |].
  cbn [fmap list_fmap]. rewrite !filter_cons.
  destruct (decide (cut pie_bins (aqi_max b) = Some i)); cbn [length];
    by rewrite IH.
Qed.

(** The bins of the pie chart, for any list of buckets: the distribution
    has exactly one entry per label of the pie chart, in the order of
    [pie_labels], one label per band of [AQI_CATEGORY] in the order of
    the bands, every count zero-filled.
    The entry at position [i] counts the buckets whose overall index
    lies in the bin [(bins[i], bins[i+1]]] of the edges
    0, 50, 100, 150, 200, 300, 500 (the lowest edge included in the first
    bin).  Every index that lies in band [i] of [AQI_CATEGORY] falls in
    bin [i]; buckets without overall index, and indices outside
    [0, 500], are counted nowhere. *)
Theorem counts_bin_the_overall_index :
  (∀ aqi_df : list Bucket,
     (counts aqi_df).*1 = pie_labels ∧
     length (counts aqi_df) = length AQI_CATEGORY) ∧
  (∀ (aqi_df : list Bucket) (i : nat) (label : string) (n : nat),
     counts aqi_df !! i = Some (label, n) →
     pie_labels !! i = Some label ∧
     n = length (filter (λ b, cut pie_bins (aqi_max b) = Some i) aqi_df)) ∧
  (∀ (a : Q) (i : nat),
     cut pie_bins (Some a) = Some i ↔
     ∃ lo hi, pie_bins !! i = Some lo ∧ pie_bins !! S i = Some hi ∧
              ((lo < a)%Q ∨ (i = 0%nat ∧ (a == lo)%Q)) ∧ (a <= hi)%Q) ∧
  (∀ (a : Q) (i : nat) (lo hi : Q) (name : string),
     AQI_CATEGORY !! i = Some (lo, hi, name) → (lo <= a)%Q → (a <= hi)%Q →
     cut pie_bins (Some a) = Some i) ∧
  cut pie_bins None = None ∧
  (∀ a : Q, (a < 0)%Q ∨ (500 < a)%Q → cut pie_bins (Some a) = None).
Proof.
  split; [| split; [| split; [| split; [| split]]]].
  - intros aqi_df. split; reflexivity.
  - intros aqi_df i label n Hi. unfold counts, value_counts in Hi.
    rewrite list_lookup_imap in Hi.
    destruct (pie_labels !! i) as [l|] eqn:Hl; [| done].
    injection Hi as <- <-. split; [done |]. apply filter_codes.
  - apply cut_pie_bins_Some.
  - intros a i lo hi name Hi Hlo Hhi.
    destruct (cut_pie_bins a) as (_ & C1 & C2 & C3 & C4 & C5 & C6 & _).
    do 6 (destruct i as [|i];
          [injection Hi as <- <- _;
           first [apply C1 | apply C2 | apply C3 | apply C4 | apply C5 | apply C6];
           split; lra |]).
    destruct i; discriminate.
  - reflexivity.
  - intros a Ha.
    destruct (cut_pie_bins a) as (C0 & _ & _ & _ & _ & _ & _ & C7).
    destruct Ha; [by apply C0 | by apply C7].
Qed.

Lemma counts_bin_the_overall_index_witness :
  AQI_CATEGORY !! 1%nat = Some (51%Q, 100%Q, "Moderate") ∧
  (51 <= 75)%Q ∧ (75 <= 100)%Q ∧
  cut pie_bins (Some 75%Q) = Some 1%nat.
Proof.
  split; [reflexivity |]. split; [discriminate |]. split; [discriminate |].
  apply (proj1 (proj2 (proj2 (proj2 counts_bin_the_overall_index)))
           75%Q 1%nat 51%Q 100%Q "Moderate");
    [reflexivity | discriminate | discriminate].
Defined.

(** ** The "no data" signal *)

Lemma dashboard_is_not_no_data (fmt_0f fmt_1f : Q → string)
    (strftime fmt_date : Z → string) (city station : option string)
    (sd ed : option Z) (thresh : option Q) (cols : list string)
    (aqi_df : list Bucket) (message : string) :
  dashboard fmt_0f fmt_1f strftime fmt_date city station sd ed thresh cols
    aqi_df ≠ no_data message.
Proof.
  intros H. apply (f_equal fig_category_pie) in H.
  unfold dashboard, no_data in H. cbn [fig_category_pie] in H. discriminate.
Qed.

(** The narrative of a computed result starts with its summary line. *)
Lemma dashboard_insight (fmt_0f fmt_1f : Q → string)
    (strftime fmt_date : Z → string) (city station : option string)
    (sd ed : option Z) (thresh : option Q) (cols : list string)
    (aqi_df : list Bucket) :
  ∃ rest,
    insight_md (dashboard fmt_0f fmt_1f strftime fmt_date city station sd ed
                  thresh cols aqi_df)
    = "**Summary for " +:+ rest.
Proof. unfold dashboard. cbn [insight_md]. eexists. reflexivity. Qed.

(** C9: when no reading is left after the filters, the callback returns
    the "no data" outputs (empty figures, dashes and the message "No data
    in the selected filters"), and it returns them in that case only.
    These outputs differ from every result computed from buckets, be it
    from no bucket at all or from a single bucket without index, and from
    the outputs of the other early return.  The callback is a total
    function: there is no failure case. *)
Theorem no_data_signal :
  (∀ (df : list Reading) (fmt_0f fmt_1f : Q → string)
     (strftime fmt_date : Z → string) (city station : option string)
     (start_date end_date : option Z) (pollutants : list string)
     (agg : string) (thresh : option Q),
     filtered df city station start_date end_date pollutants = [] →
     update_all df fmt_0f fmt_1f strftime fmt_date city station start_date
       end_date pollutants agg thresh
     = no_data "_No data in the selected filters._") ∧
  (∀ (df : list Reading) (fmt_0f fmt_1f : Q → string)
     (strftime fmt_date : Z → string) (city station : option string)
     (start_date end_date : option Z) (pollutants : list string)
     (agg : string) (thresh : option Q),
     update_all df fmt_0f fmt_1f strftime fmt_date city station start_date
       end_date pollutants agg thresh
     = no_data "_No data in the selected filters._" →
     filtered df city station start_date end_date pollutants = []) ∧
  (∀ (fmt_0f fmt_1f : Q → string) (strftime fmt_date : Z → string)
     (city station : option string) (sd ed : option Z) (thresh : option Q)
     (cols : list string) (aqi_df : list Bucket) (message : string),
     dashboard fmt_0f fmt_1f strftime fmt_date city station sd ed thresh cols
       aqi_df ≠ no_data message ∧
     insight_md (dashboard fmt_0f fmt_1f strftime fmt_date city station sd ed
                   thresh cols aqi_df)
     ≠ insight_md (no_data "_No data in the selected filters._")) ∧
  no_data "_No data in the selected filters._"
  ≠ no_data "_No AQI could be computed for the selected pollutants._".
Proof.
  split; [| split; [| split]].
  - intros df fmt_0f fmt_1f strftime fmt_date city station start_date
      end_date pollutants agg thresh Hempty.
    unfold update_all. unfold filtered in Hempty. by rewrite Hempty.
  - intros df fmt_0f fmt_1f strftime fmt_date city station start_date
      end_date pollutants agg thresh.
    unfold update_all, filtered.
    destruct (filter_readings df city (guard_station df city station)
                (normalize <$> start_date) (normalize <$> end_date) pollutants)
      as [|r dff]; [done |].
    destruct (aqi_columns pollutants (concentrations (r :: dff) agg));
      intros H.
    + apply (f_equal insight_md) in H. discriminate.
    + by apply dashboard_is_not_no_data in H.
  - intros fmt_0f fmt_1f strftime fmt_date city station sd ed thresh cols
      aqi_df message.
    split; [apply dashboard_is_not_no_data |].
    destruct (dashboard_insight fmt_0f fmt_1f strftime fmt_date city station
                sd ed thresh cols aqi_df) as [rest ->].
    discriminate.
  - intros H. apply (f_equal insight_md) in H. discriminate.
Qed.

Lemma no_data_signal_witness :
  filtered [ {| r_city := Some "Kuwait City"; r_station := Some "S1";
                r_datetime_local := Some 0; r_pollutant := "pm25";
                r_value := Some 10%Q |} ]
    (Some "Paris") None None None ["pm25"] = [] ∧
  update_all
    [ {| r_city := Some "Kuwait City"; r_station := Some "S1";
         r_datetime_local := Some 0; r_pollutant := "pm25";
         r_value := Some 10%Q |} ]
    (λ _, "") (λ _, "") (λ _, "") (λ _, "")
    (Some "Paris") None None None ["pm25"] "D" (Some 100%Q)
  = no_data "_No data in the selected filters._".
Proof.
  split; [reflexivity |].
  apply (proj1 no_data_signal). reflexivity.
Defined.

(** ** Gaps in the aggregated series *)

Lemma cell_of_fmap (f : string → option Q) (cols : list string) (p : string) :
  cell_of ((λ c, (c, f c)) <$> cols) p = if decide (p ∈ cols) then f p else nan.
Proof.
  induction cols as [|c cols IH]; [done |].
  cbn [fmap list_fmap cell_of]. destruct (decide (c = p)) as [-> | Hne].
  - rewrite decide_True; [done | apply list_elem_of_here].
  - fold (fmap (M := list) (λ c, (c, f c)) cols). rewrite IH.
    destruct (decide (p ∈ cols)) as [Hin | Hnin].
    + rewrite decide_True; [done | by apply list_elem_of_further].
    + rewrite decide_False; [done |].
      intros [-> | Hin]%elem_of_cons; done.
Qed.

Lemma elem_of_dropna (dff : list Reading) (t : Z) (p : string) (v : Q) :
  (t, p, v) ∈ dropna dff ↔
  ∃ r, r ∈ dff ∧ r_datetime_local r = Some t ∧ r_pollutant r = p
       ∧ r_value r = Some v.
Proof.
  unfold dropna. rewrite merge_sort_Permutation, list_elem_of_omap. split.
  - intros (r & Hr & Heq). exists r. split; [done |].
    destruct (r_datetime_local r), (r_value r); naive_solver.
  - intros (r & Hr & Ht & Hp & Hv). exists r. split; [done |].
    by rewrite Ht, Hv, Hp.
Qed.

Lemma values_at_nil (obs : list Obs) (t : Z) (p : string) :
  (∀ v, (t, p, v) ∉ obs) → values_at obs t p = [].
Proof.
  intros Hno. unfold values_at. induction obs as [|[[t' p'] v'] obs IH];
    [done |].
  cbn [omap list_omap fst snd]. destruct (decide (t' = t ∧ p' = p)) as [[-> ->] | _].
  - destruct (Hno v'). apply list_elem_of_here.
  - apply IH. intros v Hin. apply (Hno v). by apply list_elem_of_further.
Qed.

Lemma nanmean_all_nan (s : list (option Q)) :
  (∀ x, x ∈ s → x = nan) → nanmean s = nan.
Proof.
  intros Hall. unfold nanmean, dropna_values.
  assert (omap id s = []) as ->; [| done].
  induction s as [|x s IH]; [done |].
  rewrite (Hall x) by apply list_elem_of_here. cbn [omap list_omap id].
  apply IH. intros y Hy. apply Hall. by apply list_elem_of_further.
Qed.

(** A row of the pivot: its cells are the means of the readings recorded
    at its timestamp. *)
Lemma pivot_table_row (obs : list Obs) (t : Z) (row : Row) :
  (t, row) ∈ rows (pivot_table obs) →
  row = (λ p, (p, mean (values_at obs t p))) <$> columns (pivot_table obs).
Proof.
  unfold pivot_table. cbn [rows columns].
  intros (t' & [= -> ->] & _)%list_elem_of_fmap. done.
Qed.

(** A row of the resampled frame: its cells are the means of the cells of
    the bin. *)
Lemma resample_mean_row (agg : string) (conc : DataFrame) (b : Z) (row : Row) :
  (b, row) ∈ rows (resample_mean agg conc) →
  row = (λ p, (p, nanmean (cells_in agg conc b p))) <$> columns conc.
Proof.
  unfold resample_mean.
  destruct (head (rows conc)) as [first|] eqn:Hhead.
  - destruct (last (rows conc)) as [lst|] eqn:Hlast.
    + cbn [rows]. by intros (k & [= -> ->] & _)%list_elem_of_fmap.
    + apply last_None in Hlast. by rewrite Hlast in Hhead.
  - apply head_None in Hhead. rewrite Hhead. by intros ?%elem_of_nil.
Qed.

(** A cell without contributing reading is NaN. *)
Lemma concentrations_gap (dff : list Reading) (agg : string) (b : Z)
    (row : Row) (p : string) :
  (b, row) ∈ rows (concentrations dff agg) →
  (∀ r, r ∈ dff → ¬ contributes agg r p b) →
  cell_of row p = nan ∧ ∀ x, (p, x) ∈ row → x = nan.
Proof.
  intros Hrow Hno.
  assert (∀ t, bucket_of agg t = b → mean (values_at (dropna dff) t p) = nan)
    as Hpivot.
  { intros t Ht. rewrite values_at_nil; [done |].
    intros v (r & Hr & Hrt & Hrp & Hrv)%elem_of_dropna.
    apply (Hno r Hr). split; [done |]. by exists t, v. }
  unfold concentrations, bucket_of in *.
  destruct (is_granularity agg).
  - assert (nanmean (cells_in agg (pivot_table (dropna dff)) b p) = nan) as Hbin.
    { apply nanmean_all_nan. intros x. unfold cells_in.
      intros ([t row'] & -> & Hin)%list_elem_of_fmap.
      apply list_elem_of_filter in Hin as [Hlabel Hin]. cbn [fst snd] in *.
      rewrite (pivot_table_row _ _ _ Hin), cell_of_fmap.
      destruct (decide _); [by apply Hpivot | done]. }
    rewrite (resample_mean_row _ _ _ _ Hrow). split.
    + rewrite cell_of_fmap. by destruct (decide _).
    + intros x (p' & [= <- ->] & _)%list_elem_of_fmap. done.
  - rewrite (pivot_table_row _ _ _ Hrow). split.
    + rewrite cell_of_fmap. destruct (decide _); [by apply Hpivot | done].
    + intros x (p' & [= <- ->] & _)%list_elem_of_fmap. by apply Hpivot.
Qed.

(** C7: in the aggregated frame, a bucket to which no reading of a
    pollutant contributes carries NaN for that pollutant, not zero, and
    the index computed from it for that pollutant is NaN as well. *)
Theorem gaps_stay_undefined :
  (∀ (dff : list Reading) (agg : string) (b : Z) (row : Row) (p : string),
     (b, row) ∈ rows (concentrations dff agg) →
     (∀ r, r ∈ dff → ¬ contributes agg r p b) →
     cell_of row p = nan ∧ (∀ x, (p, x) ∈ row → x = nan) ∧
     cell_of row p ≠ Some 0%Q ∧
     compute_aqi_for_value p (cell_of row p) = nan) ∧
  (∀ (dff : list Reading) (agg : string) (pollutants : list string)
     (bucket : Bucket) (p : string) (x : option Q),
     bucket ∈ aqi_frame pollutants (concentrations dff agg) →
     (∀ r, r ∈ dff → ¬ contributes agg r p (timestamp bucket)) →
     (p, x) ∈ index_by_pollutant bucket → x = nan).
Proof.
  split.
  - intros dff agg b row p Hrow Hno.
    destruct (concentrations_gap dff agg b row p Hrow Hno) as [Hcell Hrowp].
    rewrite Hcell. repeat split; done.
  - intros dff agg pollutants bucket p x Hbucket Hno Hx.
    unfold aqi_frame in Hbucket.
    apply list_elem_of_fmap in Hbucket as ([b row] & -> & Hrow).
    cbn [index_by_pollutant timestamp fst snd] in *.
    apply list_elem_of_fmap in Hx as (p' & [= <- ->] & _).
    destruct (concentrations_gap dff agg b row p Hrow Hno) as [-> _]. done.
Qed.

Lemma gaps_stay_undefined_witness :
  (hour, [("pm25", nan)]) ∈ rows (concentrations sample_readings "H") ∧
  (∀ r, r ∈ sample_readings → ¬ contributes "H" r "pm25" hour) ∧
  compute_aqi_for_value "pm25" (cell_of [("pm25", nan)] "pm25") = nan.
Proof.
  assert ((hour, [("pm25", nan)]) ∈ rows (concentrations sample_readings "H"))
    as Hrow.
  { assert (rows (concentrations sample_readings "H")
            = [ (0, [("pm25", Some (10 / 1)%Q)]); (hour, [("pm25", nan)]);
                (2 * hour, [("pm25", Some (20 / 1)%Q)]) ]) as ->
      by (vm_compute; reflexivity).
    apply list_elem_of_further, list_elem_of_here. }
  assert (∀ r, r ∈ sample_readings → ¬ contributes "H" r "pm25" hour) as Hno.
  { intros r Hr (_ & t & v & Ht & _ & Hb). unfold sample_readings in Hr.
    apply elem_of_cons in Hr as [-> | Hr].
    - injection Ht as <-. vm_compute in Hb. discriminate.
    - apply list_elem_of_singleton in Hr as ->.
      injection Ht as <-. vm_compute in Hb. discriminate. }
  split; [exact Hrow |]. split; [exact Hno |].
  apply (proj1 gaps_stay_undefined sample_readings "H" hour _ "pm25" Hrow Hno).
Defined.

(** * Further properties of the AQI utilities *)

Lemma scan_table_Some (table : list Breakpoint) (v a : Q) :
  scan_table table v = Some a →
  ∃ b, b ∈ table ∧ (BPlo b <= v)%Q ∧ (v <= BPhi b)%Q ∧ a = interpolate b v.
Proof.
  induction table as [|b rest IH]; cbn [scan_table]; [done |].
  destruct (between (BPlo b) v (BPhi b)) eqn:Hb.
  - intros [= <-]. apply between_true in Hb as [? ?]. exists b.
    split; [apply list_elem_of_here | done].
  - intros H. destruct (IH H) as (b' & Hin & Hrest). exists b'.
    split; [by apply list_elem_of_further | done].
Qed.

(** The two ways [compute_aqi_for_value] produces a number. *)
Lemma compute_aqi_Some (p : string) (v a : Q) :
  compute_aqi_for_value p (Some v) = Some a →
  ∃ table, AQI_TABLE !! p = Some table ∧
    ((∃ b, b ∈ table ∧ (BPlo b <= v)%Q ∧ (v <= BPhi b)%Q
           ∧ a = interpolate b v)
     ∨ (a = 500%Q ∧ scan_table table v = None
        ∧ ∃ bl, last table = Some bl ∧ (BPhi bl < v)%Q)).
Proof.
  unfold compute_aqi_for_value.
  destruct (AQI_TABLE !! p) as [table|] eqn:Hp; cbn [default from_option id];
    [| done].
  intros H. exists table. split; [done |].
  destruct (scan_table table v) as [a'|] eqn:Hscan.
  - injection H as <-. left. by apply scan_table_Some.
  - right. unfold above_last in H. destruct (last table) as [bl|] eqn:Hl; [| done].
    destruct (Qltb (BPhi bl) v) eqn:Hlt; [| done].
    injection H as <-. apply Qltb_true in Hlt. split; [done |].
    split; [done |]. by exists bl.
Qed.

(** The interpolation stays between the two indices of its breakpoint and
    grows with the concentration. *)
Lemma interpolate_range (b : Breakpoint) (v : Q) :
  (BPlo b < BPhi b)%Q → (Ilo b < Ihi b)%Q →
  (BPlo b <= v)%Q → (v <= BPhi b)%Q →
  (Ilo b <= interpolate b v)%Q ∧ (interpolate b v <= Ihi b)%Q.
Proof.
  intros Hc Hi Hlo Hhi. unfold interpolate.
  set (k := ((Ihi b - Ilo b) / (BPhi b - BPlo b))%Q).
  assert (k * (BPhi b - BPlo b) == Ihi b - Ilo b)%Q as Hk.
  { unfold k. field. lra. }
  assert (0 < k)%Q as Hpos.
  { unfold k. apply Qlt_shift_div_l; lra. }
  split; nra.
Qed.

Lemma interpolate_monotone (b : Breakpoint) (v1 v2 : Q) :
  (BPlo b < BPhi b)%Q → (Ilo b < Ihi b)%Q → (v1 <= v2)%Q →
  (interpolate b v1 <= interpolate b v2)%Q.
Proof.
  intros Hc Hi Hv. unfold interpolate.
  set (k := ((Ihi b - Ilo b) / (BPhi b - BPlo b))%Q).
  assert (0 < k)%Q as Hpos.
  { unfold k. apply Qlt_shift_div_l; lra. }
  nra.
Qed.

(** In a strictly increasing table a later row lies above an earlier one,
    in concentration and in index. *)
Lemma strictly_increasing_lookup (table : list Breakpoint) (j k : nat)
    (bj bk : Breakpoint) :
  strictly_increasing table = true →
  table !! j = Some bj → table !! k = Some bk → (j < k)%nat →
  (BPhi bj < BPlo bk)%Q ∧ (Ihi bj < Ilo bk)%Q.
Proof.
  intros Hinc Hj Hk Hjk.
  assert (∀ t i bi, strictly_increasing t = true → t !! i = Some bi →
            (BPlo bi < BPhi bi)%Q ∧ (Ilo bi < Ihi bi)%Q) as Hrow.
  { intros t i bi Ht Hi. unfold strictly_increasing in Ht.
    apply andb_true_iff in Ht as [Ht _]. rewrite forallb_forall in Ht.
    apply list_elem_of_lookup_2, list_elem_of_In, Ht in Hi.
    apply andb_true_iff in Hi as [H1 H2]. by apply Qltb_true in H1, H2. }
  remember (k - j)%nat as d eqn:Hd. revert j k bj bk Hj Hk Hjk Hd.
  induction d as [d IH] using lt_wf_ind. intros j k bj bk Hj Hk Hjk Hd.
  destruct k as [|k]; [lia |].
  destruct (decide (j = k)) as [-> | Hne].
  - unfold strictly_increasing in Hinc. apply andb_true_iff in Hinc as [_ Hadj].
    pose proof (adjacent_all_lookup _ _ _ _ _ Hadj Hj Hk) as H.
    cbv beta in H. apply andb_true_iff in H as [H1 H2].
    by apply Qltb_true in H1, H2.
  - assert (is_Some (table !! k)) as [bm Hm].
    { apply lookup_lt_is_Some. apply lookup_lt_Some in Hk. lia. }
    destruct (IH (k - j)%nat ltac:(lia) j k bj bm Hj Hm ltac:(lia) eq_refl)
      as [H1 H2].
    destruct (IH 1%nat ltac:(lia) k (S k) bm bk Hm Hk ltac:(lia) ltac:(lia))
      as [H3 H4].
    destruct (Hrow table k bm Hinc Hm). split; lra.
Qed.

(** Two rows of a strictly increasing table are the same row or one lies
    strictly above the other. *)
Lemma strictly_increasing_trichotomy (table : list Breakpoint)
    (b1 b2 : Breakpoint) :
  strictly_increasing table = true → b1 ∈ table → b2 ∈ table →
  b1 = b2 ∨ ((BPhi b1 < BPlo b2)%Q ∧ (Ihi b1 < Ilo b2)%Q)
  ∨ ((BPhi b2 < BPlo b1)%Q ∧ (Ihi b2 < Ilo b1)%Q).
Proof.
  intros Hinc [j Hj]%list_elem_of_lookup [k Hk]%list_elem_of_lookup.
  destruct (lt_eq_lt_dec j k) as [[Hlt | ->] | Hgt].
  - right; left. by apply (strictly_increasing_lookup table j k).
  - left. congruence.
  - right; right. by apply (strictly_increasing_lookup table k j).
Qed.

Lemma table_row_ok (p : string) (table : list Breakpoint) (b : Breakpoint) :
  AQI_TABLE !! p = Some table → b ∈ table →
  (BPlo b < BPhi b)%Q ∧ (Ilo b < Ihi b)%Q.
Proof.
  intros Hp Hb. destruct (strictly_increasing_tables p table Hp) as [Hinc _].
  apply andb_true_iff in Hinc as [Hrows _]. rewrite forallb_forall in Hrows.
  apply list_elem_of_In, Hrows, andb_true_iff in Hb as [H1 H2].
  by apply Qltb_true in H1, H2.
Qed.

(** Every index range of the tables lies inside one category band. *)
Lemma table_row_in_band (p : string) (table : list Breakpoint)
    (b : Breakpoint) :
  AQI_TABLE !! p = Some table → b ∈ table →
  ∃ lo hi name, (lo, hi, name) ∈ AQI_CATEGORY ∧ (lo <= Ilo b)%Q
                ∧ (Ihi b <= hi)%Q.
Proof.
  intros Hp Hb.
  assert (∀ lo hi name (i : nat), AQI_CATEGORY !! i = Some (lo, hi, name) →
            (lo <= Ilo b)%Q → (Ihi b <= hi)%Q →
            ∃ lo hi name, (lo, hi, name) ∈ AQI_CATEGORY ∧ (lo <= Ilo b)%Q
                          ∧ (Ihi b <= hi)%Q) as Hband.
  { intros lo hi name i Hi ??. exists lo, hi, name.
    split; [by apply list_elem_of_lookup_2 in Hi | done]. }
  destruct (AQI_TABLE_lookup p table Hp) as [[-> ->] | [-> ->]].
  - unfold pm25_table in Hb. rewrite !elem_of_cons, elem_of_nil in Hb.
    destruct Hb as [-> | [-> | [-> | [-> | [-> | [-> | [-> | []]]]]]]].
    + by apply (Hband 0%Q 50%Q "Good" 0%nat).
    + by apply (Hband 51%Q 100%Q "Moderate" 1%nat).
    + by apply (Hband 101%Q 150%Q "Unhealthy for Sensitive Groups" 2%nat).
    + by apply (Hband 151%Q 200%Q "Unhealthy" 3%nat).
    + by apply (Hband 201%Q 300%Q "Very Unhealthy" 4%nat).
    + by apply (Hband 301%Q 500%Q "Hazardous" 5%nat).
    + by apply (Hband 301%Q 500%Q "Hazardous" 5%nat).
  - unfold o3_table in Hb. rewrite !elem_of_cons, elem_of_nil in Hb.
    destruct Hb as [-> | [-> | [-> | [-> | [-> | []]]]]].
    + by apply (Hband 0%Q 50%Q "Good" 0%nat).
    + by apply (Hband 51%Q 100%Q "Moderate" 1%nat).
    + by apply (Hband 101%Q 150%Q "Unhealthy for Sensitive Groups" 2%nat).
    + by apply (Hband 151%Q 200%Q "Unhealthy" 3%nat).
    + by apply (Hband 201%Q 300%Q "Very Unhealthy" 4%nat).
Qed.

Lemma band_limits (lo hi : Q) (name : string) :
  (lo, hi, name) ∈ AQI_CATEGORY → (0 <= lo)%Q ∧ (hi <= 500)%Q.
Proof.
  unfold AQI_CATEGORY. rewrite !elem_of_cons, elem_of_nil. intros H.
  repeat (destruct H as [[= -> -> _] | H]; [split; discriminate |]). done.
Qed.

(** A computed index lies in a category band. *)
Lemma compute_aqi_in_band (p : string) (v a : Q) :
  compute_aqi_for_value p (Some v) = Some a → in_band a.
Proof.
  intros (table & Hp & [(b & Hb & Hlo & Hhi & ->) | (-> & _)])%compute_aqi_Some.
  - destruct (table_row_ok p table b Hp Hb) as [Hc Hi].
    destruct (interpolate_range b v Hc Hi Hlo Hhi) as [H1 H2].
    destruct (table_row_in_band p table b Hp Hb) as (lo & hi & name & Hin & ? & ?).
    exists lo, hi, name. split; [done |]. split; lra.
  - exists 301%Q, 500%Q, "Hazardous". split; [| split; discriminate].
    unfold AQI_CATEGORY. elem_of_table.
Qed.

(** X1: an index computed by [compute_aqi_for_value] always lies on the
    scale from 0 to 500; when it is interpolated it lies between the two
    indices of the breakpoint that holds the concentration. *)
Theorem compute_aqi_on_the_scale (p : string) (v a : Q) :
  compute_aqi_for_value p (Some v) = Some a →
  (0 <= a)%Q ∧ (a <= 500)%Q ∧
  ∀ table b, AQI_TABLE !! p = Some table → b ∈ table →
             (BPlo b <= v)%Q → (v <= BPhi b)%Q →
             (Ilo b <= a)%Q ∧ (a <= Ihi b)%Q.
Proof.
  intros Ha. pose proof (compute_aqi_in_band p v a Ha)
    as (lo & hi & name & Hin & Hlo & Hhi).
  destruct (band_limits lo hi name Hin). split; [lra |]. split; [lra |].
  intros table b Hp Hb Hv1 Hv2.
  destruct (table_row_ok p table b Hp Hb) as [Hc Hi].
  destruct (strictly_increasing_tables p table Hp) as [Hinc _].
  apply compute_aqi_Some in Ha
    as (table' & Hp' & [(b' & Hb' & Hlo' & Hhi' & ->) | (-> & Hscan & _)]).
  - assert (table' = table) as -> by congruence.
    destruct (strictly_increasing_trichotomy table b b' Hinc Hb Hb')
      as [<- | [[? _] | [? _]]]; [| lra | lra].
    by apply interpolate_range.
  - assert (table' = table) as -> by congruence.
    apply (proj1 (scan_table_none table v)) with (b := b) in Hscan; [| done].
    apply between_false in Hscan. by destruct Hscan.
Qed.

Lemma compute_aqi_on_the_scale_witness :
  compute_aqi_for_value "pm25" (Some 20%Q) = Some (1575400 # 23300) ∧
  (0 <= 1575400 # 23300)%Q ∧ (1575400 # 23300 <= 500)%Q.
Proof.
  assert (compute_aqi_for_value "pm25" (Some 20%Q) = Some (1575400 # 23300))
    as H by (vm_compute; reflexivity).
  split; [exact H |].
  destruct (compute_aqi_on_the_scale "pm25" 20%Q _ H) as (H1 & H2 & _).
  split; [exact H1 | exact H2].
Defined.

(** X2: the index never decreases when the concentration grows: of two
    concentrations of one pollutant that both have an index, the larger
    one has the larger (or the same) index. *)
Theorem compute_aqi_monotone (p : string) (v1 v2 a1 a2 : Q) :
  (v1 <= v2)%Q →
  compute_aqi_for_value p (Some v1) = Some a1 →
  compute_aqi_for_value p (Some v2) = Some a2 →
  (a1 <= a2)%Q.
Proof.
  intros Hv H1 H2.
  assert (a1 <= 500)%Q as Hmax1.
  { destruct (compute_aqi_in_band p v1 a1 H1) as (lo & hi & name & Hin & ? & ?).
    destruct (band_limits lo hi name Hin). lra. }
  apply compute_aqi_Some in H1
    as (table & Hp & [(b1 & Hb1 & Hlo1 & Hhi1 & ->) | (-> & _ & bl & Hl & Hbl)]);
  apply compute_aqi_Some in H2
    as (table' & Hp' & [(b2 & Hb2 & Hlo2 & Hhi2 & ->) | (-> & _ & _)]);
  assert (table' = table) as -> by congruence;
  destruct (strictly_increasing_tables p table Hp) as [Hinc _].
  - destruct (table_row_ok p table b1 Hp Hb1) as [Hc1 Hi1].
    destruct (table_row_ok p table b2 Hp Hb2) as [Hc2 Hi2].
    destruct (interpolate_range b1 v1 Hc1 Hi1 Hlo1 Hhi1).
    destruct (interpolate_range b2 v2 Hc2 Hi2 Hlo2 Hhi2).
    destruct (strictly_increasing_trichotomy table b1 b2 Hinc Hb1 Hb2)
      as [<- | [[_ ?] | [? _]]]; [| lra | lra].
    by apply interpolate_monotone.
  - done.
  - destruct (below_last table bl b2 Hinc Hl Hb2). lra.
  - lra.
Qed.

Lemma compute_aqi_monotone_witness :
  (12 <= 35.4)%Q ∧
  compute_aqi_for_value "pm25" (Some 12%Q) = Some (600000 # 12000) ∧
  compute_aqi_for_value "pm25" (Some 35.4%Q) = Some (23300000 # 233000) ∧
  (600000 # 12000 <= 23300000 # 233000)%Q.
Proof.
  split; [discriminate |]. split; [vm_compute; reflexivity |].
  split; [vm_compute; reflexivity |].
  apply (compute_aqi_monotone "pm25" 12%Q 35.4%Q);
    [discriminate | vm_compute; reflexivity | vm_compute; reflexivity].
Defined.

(** X3: a concentration that falls strictly between two consecutive
    breakpoints of its pollutant's table (such as 12.05 for PM2.5, between
    12.0 and 12.1) has no index: no breakpoint holds it and the ceiling is
    not applied. *)
Theorem compute_aqi_between_breakpoints (p : string)
    (table : list Breakpoint) (i : nat) (b1 b2 : Breakpoint) (v : Q) :
  AQI_TABLE !! p = Some table →
  table !! i = Some b1 → table !! S i = Some b2 →
  (BPhi b1 < v)%Q → (v < BPlo b2)%Q →
  compute_aqi_for_value p (Some v) = nan.
Proof.
  intros Hp H1 H2 Hv1 Hv2.
  destruct (strictly_increasing_tables p table Hp) as [Hinc _].
  unfold compute_aqi_for_value. rewrite Hp. cbn [default from_option id].
  assert (scan_table table v = None) as ->.
  { apply scan_table_none. intros b Hb. apply between_false. intros [Hlo Hhi].
    destruct (table_row_ok p table b Hp Hb) as [Hc _].
    assert (b1 ∈ table) as Hb1 by (by apply list_elem_of_lookup_2 in H1).
    assert (b2 ∈ table) as Hb2 by (by apply list_elem_of_lookup_2 in H2).
    destruct (table_row_ok p table b1 Hp Hb1) as [Hc1 _].
    destruct (table_row_ok p table b2 Hp Hb2) as [Hc2 _].
    apply list_elem_of_lookup in Hb as [j Hj].
    destruct (le_lt_dec j i) as [Hle | Hgt].
    - destruct (decide (j = i)) as [-> | Hne].
      + assert (b = b1) as -> by congruence. lra.
      + destruct (strictly_increasing_lookup table j i b b1 Hinc Hj H1); [lia |].
        lra.
    - destruct (decide (j = S i)) as [-> | Hne].
      + assert (b = b2) as -> by congruence. lra.
      + destruct (strictly_increasing_lookup table (S i) j b2 b Hinc H2 Hj);
          [lia |]. lra. }
  unfold above_last. destruct (last table) as [bl|] eqn:Hl; [| done].
  assert (b2 ∈ table) as Hb2 by (by apply list_elem_of_lookup_2 in H2).
  destruct (below_last table bl b2 Hinc Hl Hb2).
  assert (Qltb (BPhi bl) v = false) as ->; [| done].
  apply Qltb_false. lra.
Qed.

Lemma compute_aqi_between_breakpoints_witness :
  AQI_TABLE !! "pm25" = Some pm25_table ∧
  (BPhi (0.0, 12.0, 0, 50) < 12.05)%Q ∧
  (12.05 < BPlo (12.1, 35.4, 51, 100))%Q ∧
  compute_aqi_for_value "pm25" (Some 12.05%Q) = nan.
Proof.
  split; [reflexivity |]. split; [reflexivity |]. split; [reflexivity |].
  apply (compute_aqi_between_breakpoints "pm25" pm25_table 0%nat
           (0.0, 12.0, 0, 50)%Q (12.1, 35.4, 51, 100)%Q);
    reflexivity.
Defined.

(** X4: the classifier gives a band label to every index that
    [compute_aqi_for_value] computes: the placeholder appears exactly when
    there is no index. *)
Theorem computed_index_is_classified (p : string) (value : option Q) :
  aqi_category (compute_aqi_for_value p value) = no_category ↔
  compute_aqi_for_value p value = nan.
Proof.
  split.
  - intros Hcat. destruct value as [v|]; [| done].
    destruct (compute_aqi_for_value p (Some v)) as [a|] eqn:Ha; [| done].
    apply aqi_category_marker in Hcat as [[=] | (a' & [= <-] & Hno)].
    destruct Hno. by apply (compute_aqi_in_band p v).
  - by intros ->.
Qed.

(** * Further properties of the AQI frame *)

Lemma nanmax_None (s : list (option Q)) :
  nanmax s = None ↔ ∀ x, x ∈ s → x = None.
Proof.
  induction s as [|x s IH]; cbn [nanmax foldr].
  - split; [intros _ x H; inversion H | done].
  - fold (nanmax s). destruct x as [a|].
    + split.
      * by destruct (nanmax s).
      * intros H. by specialize (H (Some a) (list_elem_of_here _ _)).
    + rewrite IH. split.
      * intros H x [-> | Hx]%elem_of_cons; eauto.
      * intros H x Hx. apply H. by apply list_elem_of_further.
Qed.

(** [nanmax] returns one of the values, and no value is larger. *)
Lemma nanmax_Some (s : list (option Q)) (m : Q) :
  nanmax s = Some m → Some m ∈ s ∧ ∀ a, Some a ∈ s → (a <= m)%Q.
Proof.
  revert m. induction s as [|x s IH]; intros m; cbn [nanmax foldr]; [done |].
  fold (nanmax s). destruct x as [a|].
  - destruct (nanmax s) as [m'|] eqn:Hrest.
    + destruct (IH m' eq_refl) as [Hin Hmax].
      destruct (Qleb m' a) eqn:Hle; intros [= <-].
      * apply Qleb_true in Hle. split; [apply list_elem_of_here |].
        intros a' [[= ->] | Ha']%elem_of_cons; [lra |].
        specialize (Hmax a' Ha'). lra.
      * apply Qleb_false in Hle. split; [by apply list_elem_of_further |].
        intros a' [[= ->] | Ha']%elem_of_cons; [lra | by apply Hmax].
    + intros [= <-]. split; [apply list_elem_of_here |].
      intros a' [[= ->] | Ha']%elem_of_cons; [lra |].
      by apply (proj1 (nanmax_None s) Hrest) in Ha'.
  - intros Hm. destruct (IH m Hm) as [Hin Hmax].
    split; [by apply list_elem_of_further |].
    intros a' [[=] | Ha']%elem_of_cons. by apply Hmax.
Qed.

(** The rows of [aqi_df] as they are built. *)
Lemma aqi_frame_bucket (pollutants : list string) (conc : DataFrame)
    (bucket : Bucket) :
  bucket ∈ aqi_frame pollutants conc →
  ∃ row, (timestamp bucket, row) ∈ rows conc ∧
    index_by_pollutant bucket
    = (λ p, (p, compute_aqi_for_value p (cell_of row p)))
        <$> aqi_columns pollutants conc ∧
    aqi_max bucket = nanmax ((index_by_pollutant bucket).*2) ∧
    aqi_cat bucket = aqi_category (aqi_max bucket).
Proof.
  unfold aqi_frame. intros ([t row] & -> & Hrow)%list_elem_of_fmap.
  exists row. by cbn.
Qed.

(** X5: in every bucket of [aqi_df] the overall index is the largest of
    the indices of the pollutants: it is the index of one of them, no
    pollutant has a larger one, and it is undefined exactly when every
    pollutant's index is. *)
Theorem overall_index_is_the_largest (pollutants : list string)
    (conc : DataFrame) (bucket : Bucket) :
  bucket ∈ aqi_frame pollutants conc →
  (aqi_max bucket = nan ↔
   ∀ p x, (p, x) ∈ index_by_pollutant bucket → x = nan) ∧
  (∀ m, aqi_max bucket = Some m →
     (∃ p, (p, Some m) ∈ index_by_pollutant bucket) ∧
     ∀ p a, (p, Some a) ∈ index_by_pollutant bucket → (a <= m)%Q).
Proof.
  intros (row & _ & _ & Hmax & _)%aqi_frame_bucket. rewrite Hmax. split.
  - rewrite nanmax_None. split.
    + intros H p x Hin. apply H. by apply (list_elem_of_fmap_2 snd) in Hin.
    + intros H x ([p x'] & -> & Hin)%list_elem_of_fmap. by apply (H p).
  - intros m [Hin Hle]%nanmax_Some. split.
    + apply list_elem_of_fmap in Hin as ([p x] & Hx & Hin). cbn in Hx.
      subst x. by exists p.
    + intros p a Ha. apply Hle. by apply (list_elem_of_fmap_2 snd) in Ha.
Qed.

(** An overall index of [aqi_df] is the index computed for one of the
    pollutants. *)
Lemma overall_index_is_computed (pollutants : list string)
    (conc : DataFrame) (bucket : Bucket) (a : Q) :
  bucket ∈ aqi_frame pollutants conc → aqi_max bucket = Some a →
  ∃ p v, compute_aqi_for_value p (Some v) = Some a.
Proof.
  intros (row & _ & Hidx & Hmax & _)%aqi_frame_bucket Ha.
  rewrite Hmax in Ha. apply nanmax_Some in Ha as [Hin _].
  apply list_elem_of_fmap in Hin as ([p x] & Hx & Hin). cbn in Hx. subst x.
  rewrite Hidx in Hin. apply list_elem_of_fmap in Hin as (p' & [= <- Hc] & _).
  destruct (cell_of row p) as [v|]; [| done]. by exists p, v.
Qed.

Lemma band_in_bin (a : Q) (i : nat) (lo hi : Q) (name : string) :
  AQI_CATEGORY !! i = Some (lo, hi, name) → (lo <= a)%Q → (a <= hi)%Q →
  cut pie_bins (Some a) = Some i.
Proof.
  intros Hi Hlo Hhi.
  destruct (cut_pie_bins a) as (_ & C1 & C2 & C3 & C4 & C5 & C6 & _).
  do 6 (destruct i as [|i];
        [injection Hi as <- <- _;
         first [apply C1 | apply C2 | apply C3 | apply C4 | apply C5 | apply C6];
         split; lra |]).
  destruct i; discriminate.
Qed.

(** X6: every overall index of [aqi_df] lies between 0 and 500, the
    category stored beside it is the label of the band that holds it, never
    the placeholder, and the pie chart counts it in the bin at the position
    of that band: on the frames of the callback the two classifications
    agree. *)
Theorem overall_index_is_classified (pollutants : list string)
    (conc : DataFrame) (bucket : Bucket) (a : Q) :
  bucket ∈ aqi_frame pollutants conc → aqi_max bucket = Some a →
  (0 <= a)%Q ∧ (a <= 500)%Q ∧ aqi_cat bucket ≠ no_category ∧
  ∃ i lo hi, AQI_CATEGORY !! i = Some (lo, hi, aqi_cat bucket) ∧
             (lo <= a)%Q ∧ (a <= hi)%Q ∧
             cut pie_bins (aqi_max bucket) = Some i.
Proof.
  intros Hb Ha.
  destruct (overall_index_is_computed pollutants conc bucket a Hb Ha)
    as (p & v & Hv).
  pose proof (compute_aqi_in_band p v a Hv) as Hband.
  apply aqi_frame_bucket in Hb as (row & _ & _ & _ & Hcat).
  rewrite Hcat, Ha.
  assert (aqi_category (Some a) ≠ no_category) as Hlabel.
  { intros [[=] | (a' & [= <-] & Hno)]%aqi_category_marker. by destruct Hno. }
  unfold aqi_category in *.
  destruct (scan_category AQI_CATEGORY a) as [name|] eqn:Hscan;
    cbn [default from_option id] in *; [| done].
  apply scan_category_Some in Hscan as (lo & hi & Hin & Hlo & Hhi).
  destruct (band_limits lo hi name Hin).
  split; [lra |]. split; [lra |]. split; [done |].
  apply list_elem_of_lookup in Hin as [i Hi]. exists i, lo, hi.
  split; [done |]. split; [done |]. split; [done |].
  by apply (band_in_bin a i lo hi name).
Qed.

Lemma sample_bucket_in_frame :
  sample_bucket ∈ aqi_frame ["pm25"; "o3"] (concentrations sample_readings "H").
Proof.
  apply (list_elem_of_lookup_2 _ 2%nat). vm_compute. reflexivity.
Qed.

Lemma overall_index_is_the_largest_witness :
  sample_bucket ∈ aqi_frame ["pm25"; "o3"] (concentrations sample_readings "H") ∧
  ∃ p, (p, Some (1575400 # 23300)) ∈ index_by_pollutant sample_bucket.
Proof.
  split; [exact sample_bucket_in_frame |].
  destruct (overall_index_is_the_largest _ _ _ sample_bucket_in_frame) as [_ H].
  exact (proj1 (H (1575400 # 23300) eq_refl)).
Defined.

Lemma overall_index_is_classified_witness :
  sample_bucket ∈ aqi_frame ["pm25"; "o3"] (concentrations sample_readings "H") ∧
  aqi_max sample_bucket = Some (1575400 # 23300) ∧
  aqi_cat sample_bucket ≠ no_category.
Proof.
  split; [exact sample_bucket_in_frame |]. split; [reflexivity |].
  destruct (overall_index_is_classified _ _ _ _ sample_bucket_in_frame eq_refl)
    as (_ & _ & H & _).
  exact H.
Defined.

(** * Further properties of the KPIs *)

Lemma sum_bounds (l : list Q) (lo hi : Q) :
  (∀ x, x ∈ l → (lo <= x)%Q ∧ (x <= hi)%Q) →
  (lo * inject_Z (Z.of_nat (length l)) <= sum l)%Q ∧
  (sum l <= hi * inject_Z (Z.of_nat (length l)))%Q.
Proof.
  induction l as [|x l IH]; intros Hall.
  - change (sum []) with 0%Q.
    change (inject_Z (Z.of_nat (length (@nil Q)))) with 0%Q. split; lra.
  - destruct (Hall x (list_elem_of_here _ _)) as [? ?].
    destruct IH as [? ?].
    { intros y Hy. apply Hall. by apply list_elem_of_further. }
    pose proof (inject_nat_S (length l)) as HS.
    change (sum (x :: l)) with (x + sum l)%Q.
    change (length (x :: l)) with (S (length l)).
    set (n := inject_Z (Z.of_nat (length l))) in *.
    set (n' := inject_Z (Z.of_nat (S (length l)))) in *.
    assert (0 <= n)%Q.
    { unfold n. change 0%Q with (inject_Z 0). rewrite <- Zle_Qle. lia. }
    clearbody n n'. rewrite HS. split; nra.
Qed.

(** The exact mean lies between any two bounds of the values.  It is
    used for the mean of a mask of zeros and ones, whose binary64 value
    also lies between 0 and 1. *)
Lemma mean_bounds (l : list Q) (lo hi m : Q) :
  (∀ x, x ∈ l → (lo <= x)%Q ∧ (x <= hi)%Q) →
  mean l = Some m → (lo <= m)%Q ∧ (m <= hi)%Q.
Proof.
  intros Hall Hm. destruct (sum_bounds l lo hi Hall) as [H1 H2].
  destruct l as [|x l]; [done |]. unfold mean in Hm. injection Hm as <-.
  assert (0 < inject_Z (Z.of_nat (length (x :: l))))%Q as Hpos.
  { change 0%Q with (inject_Z 0). rewrite <- Zlt_Qlt. cbn [length]. lia. }
  split.
  - apply Qle_shift_div_l; [done | exact H1].
  - apply Qle_shift_div_r; [done | exact H2].
Qed.

Lemma elem_of_dropna_values (s : list (option Q)) (a : Q) :
  a ∈ dropna_values s ↔ Some a ∈ s.
Proof.
  unfold dropna_values. rewrite list_elem_of_omap. split.
  - intros (x & Hx & Heq). unfold id in Heq. by subst x.
  - intros H. by exists (Some a).
Qed.

Lemma nanmean_None (s : list (option Q)) :
  nanmean s = nan ↔ ∀ x, x ∈ s → x = nan.
Proof.
  split; [| apply nanmean_all_nan].
  intros H [a|] Hx; [| done]. apply elem_of_dropna_values in Hx.
  unfold nanmean in H. by destruct (dropna_values s); [inversion Hx |].
Qed.

(** X8: the exceedance rate is a percentage: whenever it is defined it
    lies between 0 and 100. *)
Theorem exceed_rate_is_a_percentage (aqi_df : list Bucket)
    (thresh : option Q) (r : Q) :
  exceed_rate aqi_df thresh = Some r → (0 <= r)%Q ∧ (r <= 100)%Q.
Proof.
  unfold exceed_rate. destruct (notna_any _); [| done].
  destruct (bool_mean _) as [m|] eqn:Hm; [| done].
  cbn [fmap option_fmap option_map]. intros [= <-].
  assert ((0 <= m)%Q ∧ (m <= 1)%Q) as [? ?]; [| split; lra].
  apply (mean_bounds _ 0%Q 1%Q m) in Hm; [done |].
  intros x (b & -> & _)%list_elem_of_fmap. destruct b; split; discriminate.
Qed.

Lemma exceed_rate_is_a_percentage_witness :
  exceed_rate [overall 0 (Some 50%Q); overall 1 (Some 100%Q);
               overall 2 (Some 150%Q); overall 3 None] (Some 100%Q)
  = Some (200 # 4) ∧
  (0 <= 200 # 4)%Q ∧ (200 # 4 <= 100)%Q.
Proof.
  split; [reflexivity |].
  apply (exceed_rate_is_a_percentage
           [overall 0 (Some 50%Q); overall 1 (Some 100%Q);
            overall 2 (Some 150%Q); overall 3 None] (Some 100%Q)).
  reflexivity.
Defined.

(** Only the six bins of the pie chart exist. *)
Lemma cut_pie_bins_lt (x : option Q) (i : nat) :
  cut pie_bins x = Some i → (i < 6)%nat.
Proof.
  destruct x as [a|]; [| done].
  intros (lo & hi & _ & Hhi & _)%cut_pie_bins_Some.
  apply lookup_lt_Some in Hhi. cbn in Hhi. lia.
Qed.

Lemma cut_pie_bins_is_Some (a : Q) :
  is_Some (cut pie_bins (Some a)) ↔ (0 <= a)%Q ∧ (a <= 500)%Q.
Proof.
  destruct (cut_pie_bins a) as (C0 & C1 & C2 & C3 & C4 & C5 & C6 & C7).
  split.
  - intros Hsome. destruct (Qlt_le_dec a 0) as [Hlt | Hge].
    { rewrite C0 in Hsome by done. by destruct Hsome. }
    destruct (Qlt_le_dec 500 a) as [Hgt | Hle]; [| done].
    rewrite C7 in Hsome by done. by destruct Hsome.
  - intros [H0 H500].
    assert (((0 <= a)%Q ∧ (a <= 50)%Q)
            ∨ ((50 < a)%Q ∧ (a <= 100)%Q) ∨ ((100 < a)%Q ∧ (a <= 150)%Q)
            ∨ ((150 < a)%Q ∧ (a <= 200)%Q) ∨ ((200 < a)%Q ∧ (a <= 300)%Q)
            ∨ ((300 < a)%Q ∧ (a <= 500)%Q)) as Hcase by lra.
    destruct Hcase as [H | [H | [H | [H | [H | H]]]]];
      [rewrite C1 | rewrite C2 | rewrite C3 | rewrite C4 | rewrite C5
       | rewrite C6]; done.
Qed.

(** X9: the counts of the category distribution add up to the number of
    buckets whose overall index lies between 0 and 500: such a bucket is
    counted in exactly one category, any other bucket in none, so the
    total never exceeds the number of buckets. *)
Theorem counts_add_up (aqi_df : list Bucket) :
  sum_list ((counts aqi_df).*2)
  = length (filter (λ b, is_Some (cut pie_bins (aqi_max b))) aqi_df) ∧
  (sum_list ((counts aqi_df).*2) ≤ length aqi_df)%nat ∧
  ∀ b, is_Some (cut pie_bins (aqi_max b)) ↔
       ∃ a, aqi_max b = Some a ∧ (0 <= a)%Q ∧ (a <= 500)%Q.
Proof.
  assert (sum_list ((counts aqi_df).*2)
          = length (filter (λ b, is_Some (cut pie_bins (aqi_max b))) aqi_df))
    as Hsum.
  { unfold counts, value_counts, pie_labels.
    cbn [imap fmap list_fmap snd sum_list sum_list_with compose].
    rewrite !filter_codes. unfold id.
    induction aqi_df as [|b rest IH]; [done |].
    rewrite !filter_cons.
    destruct (cut pie_bins (aqi_max b)) as [i|] eqn:Hcut.
    - pose proof (cut_pie_bins_lt _ _ Hcut) as Hi.
      rewrite (decide_True (P := is_Some (Some i))) by done.
      cbn [length]. rewrite <- IH.
      do 6 (destruct i as [|i];
            [repeat case_decide; try congruence; cbn [length]; lia |]).
      lia.
    - rewrite (decide_False (P := is_Some None)) by (by intros [? ?]).
      rewrite <- IH. repeat case_decide; congruence. }
  split; [done |]. split.
  - rewrite Hsum. apply length_filter.
  - intros b. destruct (aqi_max b) as [a|].
    + rewrite cut_pie_bins_is_Some. split.
      * intros ?. by exists a.
      * by intros (a' & [= <-] & ?).
    + split; [by intros [? ?] | by intros (a & [=] & _)].
Qed.

(** * Further properties of the narrative *)




(** * Further properties of the callbacks *)

Section drop_duplicates.
Context {A : Type} `{EqDecision A}.

Lemma drop_duplicates_fold (seen l : list A) :
  NoDup seen →
  let r := foldl (λ seen x, if decide (x ∈ seen) then seen else seen ++ [x])
                 seen l in
  NoDup r ∧ (∀ x, x ∈ r ↔ x ∈ seen ∨ x ∈ l) ∧ ∃ k, r = seen ++ k.
Proof.
  revert seen. induction l as [|y l IH]; intros seen Hnd; cbn [foldl].
  - split; [done |]. split; [| by exists []; rewrite app_nil_r].
    intros x. rewrite elem_of_nil. tauto.
  - destruct (decide (y ∈ seen)) as [Hin | Hnin].
    + destruct (IH seen Hnd) as (H1 & H2 & H3). split; [done |].
      split; [| done]. intros x. rewrite H2, elem_of_cons.
      split; [tauto |]. intros [? | [-> | ?]]; tauto.
    + destruct (IH (seen ++ [y])) as (H1 & H2 & k & H3).
      { apply NoDup_app. split; [done |]. split; [| apply NoDup_singleton].
        intros x Hx ->%list_elem_of_singleton. done. }
      split; [done |]. split.
      * intros x. rewrite H2, elem_of_app, list_elem_of_singleton, elem_of_cons.
        tauto.
      * exists ([y] ++ k). by rewrite H3, <- app_assoc.
Qed.

Lemma NoDup_drop_duplicates (l : list A) : NoDup (drop_duplicates l).
Proof. apply (drop_duplicates_fold [] l). constructor. Qed.

Lemma elem_of_drop_duplicates (l : list A) (x : A) :
  x ∈ drop_duplicates l ↔ x ∈ l.
Proof.
  destruct (drop_duplicates_fold [] l (NoDup_nil_2)) as (_ & H & _).
  unfold drop_duplicates. rewrite H, elem_of_nil. tauto.
Qed.

End drop_duplicates.

Lemma elem_of_aqi_columns (pollutants : list string) (conc : DataFrame)
    (p : string) :
  p ∈ aqi_columns pollutants conc ↔ p ∈ pollutants ∧ p ∈ columns conc.
Proof.
  change (aqi_columns pollutants conc)
    with (drop_duplicates (filter (λ p, p ∈ columns conc) pollutants)).
  rewrite elem_of_drop_duplicates, list_elem_of_filter. tauto.
Qed.

Lemma concentrations_columns (dff : list Reading) (agg : string) (p : string) :
  p ∈ columns (concentrations dff agg) ↔
  ∃ r t v, r ∈ dff ∧ r_pollutant r = p ∧ r_datetime_local r = Some t
           ∧ r_value r = Some v.
Proof.
  assert (columns (concentrations dff agg)
          = columns (pivot_table (dropna dff))) as ->.
  { unfold concentrations. destruct (is_granularity agg); [| done].
    unfold resample_mean. destruct (head _); [| done]. by destruct (last _). }
  unfold pivot_table. cbn [columns].
  rewrite elem_of_remove_dups, list_elem_of_fmap. split.
  - intros ([[t p'] v] & -> & (r & Hr & Ht & Hp & Hv)%elem_of_dropna).
    by exists r, t, v.
  - intros (r & t & v & Hr & Hp & Ht & Hv). exists (t, p, v).
    split; [done |]. apply elem_of_dropna. by exists r.
Qed.

Lemma elem_of_aqi_columns_of_concentrations (pollutants : list string)
    (dff : list Reading) (agg : string) (p : string) :
  p ∈ aqi_columns pollutants (concentrations dff agg) ↔
  p ∈ pollutants ∧
  ∃ r t v, r ∈ dff ∧ r_pollutant r = p ∧ r_datetime_local r = Some t
           ∧ r_value r = Some v.
Proof. by rewrite elem_of_aqi_columns, concentrations_columns. Qed.

(** X11: the columns of [aqi_df] are the requested pollutants for which
    the selection holds at least one reading with a timestamp and a value:
    each of them once, and no other pollutant, whatever the data holds. *)
Theorem aqi_columns_are_the_measured_requests (pollutants : list string)
    (dff : list Reading) (agg : string) :
  NoDup (aqi_columns pollutants (concentrations dff agg)) ∧
  ∀ p, p ∈ aqi_columns pollutants (concentrations dff agg) ↔
       p ∈ pollutants ∧
       ∃ r t v, r ∈ dff ∧ r_pollutant r = p ∧ r_datetime_local r = Some t
                ∧ r_value r = Some v.
Proof.
  split.
  - change (aqi_columns pollutants (concentrations dff agg))
      with (drop_duplicates
              (filter (λ p, p ∈ columns (concentrations dff agg)) pollutants)).
    apply NoDup_drop_duplicates.
  - apply elem_of_aqi_columns_of_concentrations.
Qed.

(** X12: when some reading is left after the filters, the callback
    returns the message "No AQI could be computed for the selected
    pollutants" exactly when no requested pollutant has a reading with a
    timestamp and a value in the selection; so it does whenever no
    pollutant is requested. *)
Theorem no_aqi_signal (df : list Reading) (fmt_0f fmt_1f : Q → string)
    (strftime fmt_date : Z → string) (city station : option string)
    (start_date end_date : option Z) (pollutants : list string)
    (agg : string) (thresh : option Q) :
  filtered df city station start_date end_date pollutants ≠ [] →
  (update_all df fmt_0f fmt_1f strftime fmt_date city station start_date
     end_date pollutants agg thresh
   = no_data "_No AQI could be computed for the selected pollutants._" ↔
   ∀ r, r ∈ filtered df city station start_date end_date pollutants →
        r_pollutant r ∈ pollutants →
        r_datetime_local r = None ∨ r_value r = None) ∧
  (pollutants = [] →
   update_all df fmt_0f fmt_1f strftime fmt_date city station start_date
     end_date pollutants agg thresh
   = no_data "_No AQI could be computed for the selected pollutants._").
Proof.
  intros Hne. unfold update_all. unfold filtered in *.
  set (dff := filter_readings df city (guard_station df city station)
                (normalize <$> start_date) (normalize <$> end_date)
                pollutants) in *.
  assert (aqi_columns pollutants (concentrations dff agg) = [] ↔
          ∀ r, r ∈ dff → r_pollutant r ∈ pollutants →
               r_datetime_local r = None ∨ r_value r = None) as Hcols.
  { split.
    - intros Hnil r Hr Hp.
      destruct (r_datetime_local r) as [t|] eqn:Ht; [| by left].
      destruct (r_value r) as [v|] eqn:Hv; [| by right].
      assert (r_pollutant r ∈ aqi_columns pollutants (concentrations dff agg))
        as Hin.
      { apply elem_of_aqi_columns_of_concentrations. split; [done |].
        by exists r, t, v. }
      rewrite Hnil in Hin. inversion Hin.
    - intros Hall.
      destruct (aqi_columns pollutants (concentrations dff agg)) as [|p l] eqn:Hc;
        [done |].
      assert (p ∈ aqi_columns pollutants (concentrations dff agg)) as Hin.
      { rewrite Hc. apply list_elem_of_here. }
      apply elem_of_aqi_columns_of_concentrations
        in Hin as (Hp & r & t & v & Hr & <- & Ht & Hv).
      destruct (Hall r Hr Hp); congruence. }
  destruct dff as [|r0 dff'] eqn:Hdff; [done |]. rewrite <- Hdff in *.
  split.
  - rewrite <- Hcols.
    destruct (aqi_columns pollutants (concentrations dff agg)) eqn:Hc.
    + done.
    + split; [| done]. intros H. by apply dashboard_is_not_no_data in H.
  - intros ->.
    assert (aqi_columns [] (concentrations dff agg) = []) as -> by done.
    done.
Qed.

Lemma no_aqi_signal_witness :
  filtered sample_readings None None None None [] ≠ [] ∧
  update_all sample_readings (λ _, "") (λ _, "") (λ _, "") (λ _, "")
    None None None None [] "D" None
  = no_data "_No AQI could be computed for the selected pollutants._".
Proof.
  assert (filtered sample_readings None None None None [] ≠ []) as Hne
    by discriminate.
  split; [exact Hne |].
  exact (proj2 (no_aqi_signal sample_readings (λ _, "") (λ _, "") (λ _, "")
                  (λ _, "") None None None None [] "D" None Hne) eq_refl).
Defined.

Lemma on_or_after_true (bound : Z) (t : option Z) :
  on_or_after bound t ↔ ∃ t', t = Some t' ∧ bound ≤ t'.
Proof.
  destruct t as [t'|]; cbn.
  - rewrite bool_decide_spec. split; [by exists t' | by intros (? & [= <-] & ?)].
  - split; [done | by intros (? & [=] & _)].
Qed.

Lemma before_true (bound : Z) (t : option Z) :
  before bound t ↔ ∃ t', t = Some t' ∧ t' < bound.
Proof.
  destruct t as [t'|]; cbn.
  - rewrite bool_decide_spec. split; [by exists t' | by intros (? & [= <-] & ?)].
  - split; [done | by intros (? & [=] & _)].
Qed.

(** What the filters of the callback keep. *)
Lemma elem_of_filter_readings (df : list Reading) (city station : option string)
    (sd ed : option Z) (pollutants : list string) (r : Reading) :
  r ∈ filter_readings df city station sd ed pollutants ↔
  r ∈ df ∧
  (truthy city = true → r_city r = city) ∧
  (truthy station = true → r_station r = station) ∧
  (∀ s, sd = Some s → ∃ t, r_datetime_local r = Some t ∧ s ≤ t) ∧
  (∀ e, ed = Some e → ∃ t, r_datetime_local r = Some t ∧ t < e + day) ∧
  (pollutants ≠ [] → r_pollutant r ∈ pollutants).
Proof.
  unfold filter_readings.
  set (d1 := if truthy city then filter (λ r, r_city r = city) df else df).
  set (d2 := if truthy station then filter (λ r, r_station r = station) d1
             else d1).
  set (d3 := match sd with
             | Some sd => filter (λ r, on_or_after sd (r_datetime_local r)) d2
             | None => d2
             end).
  set (d4 := match ed with
             | Some ed =>
                 filter (λ r, before (ed + 1 * day) (r_datetime_local r)) d3
             | None => d3
             end).
  assert (r ∈ d1 ↔ r ∈ df ∧ (truthy city = true → r_city r = city)) as H1.
  { unfold d1. destruct (truthy city).
    - rewrite list_elem_of_filter. split; [by intros [? ?] |].
      intros [? H]. split; [by apply H | done].
    - split; [by intros ? | by intros [? _]]. }
  assert (r ∈ d2 ↔ r ∈ d1 ∧ (truthy station = true → r_station r = station))
    as H2.
  { unfold d2. destruct (truthy station).
    - rewrite list_elem_of_filter. split; [by intros [? ?] |].
      intros [? H]. split; [by apply H | done].
    - split; [by intros ? | by intros [? _]]. }
  assert (r ∈ d3 ↔ r ∈ d2 ∧
          ∀ s, sd = Some s → ∃ t, r_datetime_local r = Some t ∧ s ≤ t) as H3.
  { unfold d3. destruct sd as [s|].
    - rewrite list_elem_of_filter, on_or_after_true. split.
      + intros [? ?]. split; [done |]. by intros ? [= <-].
      + intros [? H]. split; [by apply H | done].
    - split; [| tauto]. intros ?. split; [done |]. by intros ? [=]. }
  assert (r ∈ d4 ↔ r ∈ d3 ∧
          ∀ e, ed = Some e → ∃ t, r_datetime_local r = Some t ∧ t < e + day)
    as H4.
  { unfold d4. destruct ed as [e|].
    - rewrite list_elem_of_filter, before_true, Z.mul_1_l. split.
      + intros [? ?]. split; [done |]. by intros ? [= <-].
      + intros [? H]. split; [by apply H | done].
    - split; [| tauto]. intros ?. split; [done |]. by intros ? [=]. }
  destruct pollutants as [|p ps].
  - rewrite H4, H3, H2, H1. split; [| tauto]. intros ?. repeat split; tauto.
  - rewrite list_elem_of_filter, H4, H3, H2, H1. split; [| intros ?].
    + intros ?. repeat split; tauto.
    + repeat split; try tauto. apply H. done.
Qed.

(** X13: the filters of the callback only remove rows: what is left is a
    sublist of the loaded readings, in their order, and holds exactly the
    rows that match the selected city, the selected station, the selected
    days (a row without timestamp matching no day) and the requested
    pollutants; an empty choice switches its filter off. *)
Theorem filter_readings_keeps_the_matching_rows (df : list Reading)
    (city station : option string) (sd ed : option Z)
    (pollutants : list string) :
  filter_readings df city station sd ed pollutants `sublist_of` df ∧
  ∀ r, r ∈ filter_readings df city station sd ed pollutants ↔
       r ∈ df ∧
       (truthy city = true → r_city r = city) ∧
       (truthy station = true → r_station r = station) ∧
       (∀ s, sd = Some s → ∃ t, r_datetime_local r = Some t ∧ s ≤ t) ∧
       (∀ e, ed = Some e → ∃ t, r_datetime_local r = Some t ∧ t < e + day) ∧
       (pollutants ≠ [] → r_pollutant r ∈ pollutants).
Proof.
  split; [| apply elem_of_filter_readings].
  unfold filter_readings.
  set (d1 := if truthy city then filter (λ r, r_city r = city) df else df).
  set (d2 := if truthy station then filter (λ r, r_station r = station) d1
             else d1).
  set (d3 := match sd with
             | Some sd => filter (λ r, on_or_after sd (r_datetime_local r)) d2
             | None => d2
             end).
  set (d4 := match ed with
             | Some ed =>
                 filter (λ r, before (ed + 1 * day) (r_datetime_local r)) d3
             | None => d3
             end).
  assert (d1 `sublist_of` df) as H1.
  { unfold d1. destruct (truthy city); [apply sublist_filter | done]. }
  assert (d2 `sublist_of` d1) as H2.
  { unfold d2. destruct (truthy station); [apply sublist_filter | done]. }
  assert (d3 `sublist_of` d2) as H3.
  { unfold d3. destruct sd; [apply sublist_filter | done]. }
  assert (d4 `sublist_of` d3) as H4.
  { unfold d4. destruct ed; [apply sublist_filter | done]. }
  transitivity d4; [| by repeat (etrans; [eassumption |])].
  destruct pollutants; [done | apply sublist_filter].
Qed.

Lemma filter_readings_keeps_the_matching_rows_witness :
  filter_readings sample_readings (Some "Paris") None None None []
    `sublist_of` sample_readings.
Proof.
  exact (proj1 (filter_readings_keeps_the_matching_rows sample_readings
                  (Some "Paris") None None None [])).
Defined.

Lemma elem_of_valid_stations (df : list Reading) (city : option string)
    (s : string) :
  s ∈ valid_stations df city ↔
  ∃ r, r ∈ df ∧ r_city r = city ∧ r_station r = Some s.
Proof.
  unfold valid_stations. rewrite list_elem_of_omap.
  setoid_rewrite list_elem_of_filter. split.
  - intros (r & [? ?] & ?). by exists r.
  - intros (r & ? & ? & ?). by exists r.
Qed.

(** X14: a station that does not belong to the selected city is ignored:
    the callback returns what it returns when no station is selected. *)
Theorem foreign_station_is_ignored (df : list Reading)
    (fmt_0f fmt_1f : Q → string) (strftime fmt_date : Z → string)
    (city : option string) (s : string) (start_date end_date : option Z)
    (pollutants : list string) (agg : string) (thresh : option Q) :
  truthy city = true → s ∉ valid_stations df city →
  update_all df fmt_0f fmt_1f strftime fmt_date city (Some s) start_date
    end_date pollutants agg thresh
  = update_all df fmt_0f fmt_1f strftime fmt_date city None start_date
      end_date pollutants agg thresh.
Proof.
  intros Hcity Hs. unfold update_all.
  assert (guard_station df city None = None) as -> by done.
  unfold guard_station. rewrite Hcity. cbn [andb].
  destruct (truthy (Some s)) eqn:Hst; cbn [andb].
  - by rewrite bool_decide_eq_true_2.
  - unfold filter_readings, dashboard. rewrite Hst. reflexivity.
Qed.

Lemma foreign_station_is_ignored_witness :
  truthy (Some "Kuwait City") = true ∧
  ("S9" ∉ valid_stations sample_readings (Some "Kuwait City")) ∧
  update_all sample_readings (λ _, "") (λ _, "") (λ _, "") (λ _, "")
    (Some "Kuwait City") (Some "S9") None None ["pm25"] "D" None
  = update_all sample_readings (λ _, "") (λ _, "") (λ _, "") (λ _, "")
      (Some "Kuwait City") None None None ["pm25"] "D" None.
Proof.
  assert ("S9" ∉ valid_stations sample_readings (Some "Kuwait City")) as Hs.
  { intros (r & Hr & _ & Hst)%elem_of_valid_stations.
    unfold sample_readings in Hr. rewrite !elem_of_cons, elem_of_nil in Hr.
    destruct Hr as [-> | [-> | []]]; discriminate Hst. }
  split; [reflexivity |]. split; [exact Hs |].
  by apply foreign_station_is_ignored.
Defined.

Lemma elem_of_stations_by_city (df : list Reading) (c s : option string) :
  (c, s) ∈ stations_by_city df ↔ ∃ r, r ∈ df ∧ r_city r = c ∧ r_station r = s.
Proof.
  unfold stations_by_city.
  rewrite merge_sort_Permutation, elem_of_drop_duplicates, list_elem_of_fmap.
  split.
  - intros (r & [= -> ->] & Hr). by exists r.
  - intros (r & Hr & <- & <-). by exists r.
Qed.

(** X15: for a selected city the station dropdown offers exactly the
    stations that readings of that city carry, each once, with the
    station's name as label and as value, and selects none; without a city
    it offers nothing.  Every station it offers passes the guard of the
    main callback. *)
Theorem update_stations_offers_the_stations_of_the_city (df : list Reading)
    (city : option string) :
  (update_stations df city).2 = None ∧
  (truthy city = false → (update_stations df city).1 = []) ∧
  (truthy city = true →
   NoDup ((update_stations df city).1.*2) ∧
   (∀ label value, (label, value) ∈ (update_stations df city).1 →
                   label = value) ∧
   (∀ s, s ∈ (update_stations df city).1.*2 ↔
         ∃ r, r ∈ df ∧ r_city r = city ∧ r_station r = Some s) ∧
   (∀ s, s ∈ (update_stations df city).1.*2 →
         guard_station df city (Some s) = Some s)).
Proof.
  unfold update_stations. destruct (truthy city) eqn:Hcity; cbn [fst snd].
  - split; [done |]. split; [done |]. intros _.
    set (opts := drop_duplicates
                   (omap snd (filter (λ cs, cs.1 = city) (stations_by_city df)))).
    assert (((λ s : string, (s, s)) <$> opts).*2 = opts) as Hvalues.
    { rewrite <- list_fmap_compose. apply list_fmap_id. }
    assert (∀ s, s ∈ opts ↔
                 ∃ r, r ∈ df ∧ r_city r = city ∧ r_station r = Some s) as Hopts.
    { intros s. unfold opts.
      rewrite elem_of_drop_duplicates, list_elem_of_omap.
      setoid_rewrite list_elem_of_filter. split.
      - intros ([c s'] & [Hc Hin] & Hs). cbn in Hc, Hs. subst c s'.
        by apply elem_of_stations_by_city.
      - intros Hr. exists (city, Some s). split; [| done].
        split; [done |]. by apply elem_of_stations_by_city. }
    rewrite Hvalues. split; [apply NoDup_drop_duplicates |]. split.
    + by intros label value (s & [= -> ->] & _)%list_elem_of_fmap.
    + split; [done |]. intros s Hs%Hopts. unfold guard_station.
      rewrite Hcity. cbn [andb].
      destruct (truthy (Some s)); cbn [andb]; [| done].
      rewrite bool_decide_eq_false_2; [done |].
      intros Hno. apply Hno. by apply elem_of_valid_stations.
  - split; [done |]. split; [done |]. done.
Qed.

Lemma update_stations_offers_the_stations_of_the_city_witness :
  truthy (Some "Kuwait City") = true ∧
  (update_stations sample_readings (Some "Kuwait City")).1 = [("S1", "S1")] ∧
  guard_station sample_readings (Some "Kuwait City") (Some "S1") = Some "S1".
Proof.
  split; [reflexivity |]. split; [vm_compute; reflexivity |].
  destruct (update_stations_offers_the_stations_of_the_city sample_readings
              (Some "Kuwait City")) as (_ & _ & H).
  destruct (H eq_refl) as (_ & _ & _ & Hguard).
  apply Hguard. apply (list_elem_of_lookup_2 _ 0%nat). vm_compute. reflexivity.
Defined.

(** X16: the city dropdown lists every city that some reading carries,
    each once, in alphabetical order (by code point). *)
Theorem cities_are_sorted_and_unique (df : list Reading) :
  Sorted String.le (cities df) ∧ NoDup (cities df) ∧
  ∀ c, c ∈ cities df ↔ ∃ r, r ∈ df ∧ r_city r = Some c.
Proof.
  unfold cities. split; [apply Sorted_merge_sort; apply _ |]. split.
  - rewrite merge_sort_Permutation. apply NoDup_drop_duplicates.
  - intros c. rewrite merge_sort_Permutation, elem_of_drop_duplicates.
    apply list_elem_of_omap.
Qed.

(** ** The date picker *)

Lemma day_pos : 0 < day.
Proof. done. Qed.

Lemma normalize_le (t : Z) : normalize t ≤ t ∧ t < normalize t + day.
Proof.
  unfold normalize. pose proof day_pos.
  pose proof (Z.mul_div_le t day). pose proof (Z.mul_succ_div_gt t day). lia.
Qed.

Lemma normalize_idemp (t : Z) : normalize (normalize t) = normalize t.
Proof.
  unfold normalize. pose proof day_pos. rewrite Z.div_mul by lia. done.
Qed.

Lemma normalize_mono (t1 t2 : Z) : t1 ≤ t2 → normalize t1 ≤ normalize t2.
Proof.
  intros Ht. unfold normalize. pose proof day_pos.
  pose proof (Z.div_le_mono t1 t2 day). nia.
Qed.

Lemma minimum_spec (t : Z) (ts : list Z) :
  minimum t ts ∈ t :: ts ∧ ∀ x, x ∈ t :: ts → minimum t ts ≤ x.
Proof.
  unfold minimum. induction ts as [|y ts [IH1 IH2]]; cbn [foldr].
  - split; [apply list_elem_of_here |]. by intros x ->%list_elem_of_singleton.
  - split.
    + destruct (Z.min_spec y (foldr Z.min t ts)) as [[_ ->] | [_ ->]].
      * apply list_elem_of_further, list_elem_of_here.
      * apply elem_of_cons in IH1 as [-> | IH1]; [apply list_elem_of_here |].
        by do 2 apply list_elem_of_further.
    + intros x Hx. rewrite !elem_of_cons in Hx.
      destruct Hx as [-> | [-> | Hx]].
      * specialize (IH2 t (list_elem_of_here _ _)). lia.
      * lia.
      * specialize (IH2 x (list_elem_of_further _ _ _ Hx)). lia.
Qed.

Lemma maximum_spec (t : Z) (ts : list Z) :
  maximum t ts ∈ t :: ts ∧ ∀ x, x ∈ t :: ts → x ≤ maximum t ts.
Proof.
  unfold maximum. induction ts as [|y ts [IH1 IH2]]; cbn [foldr].
  - split; [apply list_elem_of_here |]. by intros x ->%list_elem_of_singleton.
  - split.
    + destruct (Z.max_spec y (foldr Z.max t ts)) as [[_ ->] | [_ ->]].
      * apply elem_of_cons in IH1 as [-> | IH1]; [apply list_elem_of_here |].
        by do 2 apply list_elem_of_further.
      * apply list_elem_of_further, list_elem_of_here.
    + intros x Hx. rewrite !elem_of_cons in Hx.
      destruct Hx as [-> | [-> | Hx]].
      * specialize (IH2 t (list_elem_of_here _ _)). lia.
      * lia.
      * specialize (IH2 x (list_elem_of_further _ _ _ Hx)). lia.
Qed.

(** [update_dates] in terms of the timestamps of the selected rows. *)
Lemma update_dates_unfold (df : list Reading) (city station : option string) :
  update_dates df city station
  = match omap r_datetime_local
            (filter_readings df city station None None []) with
    | [] => (None, None, None, None)
    | t :: ts =>
        (Some (normalize (minimum t ts)), Some (normalize (maximum t ts)),
         Some (normalize (minimum t ts)), Some (normalize (maximum t ts)))
    end.
Proof.
  unfold update_dates, filter_readings. destruct df as [|r df]; [| done].
  by destruct (truthy city), (truthy station).
Qed.

(** The range that [update_dates] returns. *)
Lemma update_dates_spec (df : list Reading) (city station : option string)
    (dmin dmax s e : Z) :
  update_dates df city station = (Some dmin, Some dmax, Some s, Some e) →
  s = dmin ∧ e = dmax ∧ normalize dmin = dmin ∧ normalize dmax = dmax ∧
  ∀ r t, r ∈ filter_readings df city station None None [] →
         r_datetime_local r = Some t → dmin ≤ t ∧ t < dmax + day.
Proof.
  rewrite update_dates_unfold.
  destruct (omap r_datetime_local
              (filter_readings df city station None None [])) as [|t0 ts] eqn:Hts;
    [done |].
  intros [= <- <- <- <-].
  split; [done |]. split; [done |].
  split; [apply normalize_idemp |]. split; [apply normalize_idemp |].
  intros r t Hr Ht.
  assert (t ∈ t0 :: ts) as Hin.
  { rewrite <- Hts. apply list_elem_of_omap. by exists r. }
  pose proof (proj2 (minimum_spec t0 ts) t Hin).
  pose proof (proj2 (maximum_spec t0 ts) t Hin).
  pose proof (normalize_le (minimum t0 ts)).
  pose proof (normalize_le (maximum t0 ts)). lia.
Qed.

(** X17: the date picker gets no bounds exactly when no selected row has
    a timestamp.  Otherwise its bounds are the days of the earliest and of
    the latest timestamp of the selection, the default range is the pair
    of bounds, the first bound is not after the second, and every
    timestamp of the selection falls on a day of the range. *)
Theorem update_dates_cover_the_selection (df : list Reading)
    (city station : option string) :
  (update_dates df city station = (None, None, None, None) ↔
   ∀ r, r ∈ filter_readings df city station None None [] →
        r_datetime_local r = None) ∧
  (∀ dmin dmax s e,
     update_dates df city station = (Some dmin, Some dmax, Some s, Some e) →
     s = dmin ∧ e = dmax ∧ dmin ≤ dmax ∧
     normalize dmin = dmin ∧ normalize dmax = dmax ∧
     (∃ r t, r ∈ filter_readings df city station None None [] ∧
             r_datetime_local r = Some t ∧ normalize t = dmin ∧
             ∀ r' t', r' ∈ filter_readings df city station None None [] →
                      r_datetime_local r' = Some t' → t ≤ t') ∧
     (∃ r t, r ∈ filter_readings df city station None None [] ∧
             r_datetime_local r = Some t ∧ normalize t = dmax ∧
             ∀ r' t', r' ∈ filter_readings df city station None None [] →
                      r_datetime_local r' = Some t' → t' ≤ t) ∧
     (∀ r t, r ∈ filter_readings df city station None None [] →
             r_datetime_local r = Some t → dmin ≤ t ∧ t < dmax + day)).
Proof.
  rewrite update_dates_unfold.
  set (sel := filter_readings df city station None None []).
  destruct (omap r_datetime_local sel) as [|t ts] eqn:Hts.
  - split; [| done]. split; [| done]. intros _ r Hr.
    destruct (r_datetime_local r) as [t|] eqn:Ht; [| done].
    assert (t ∈ omap r_datetime_local sel) as Hin.
    { apply list_elem_of_omap. by exists r. }
    rewrite Hts in Hin. inversion Hin.
  - split.
    { split; [done |]. intros Hall.
      assert (t ∈ omap r_datetime_local sel) as Hin.
      { rewrite Hts. apply list_elem_of_here. }
      apply list_elem_of_omap in Hin as (r & Hr & Ht).
      rewrite (Hall r Hr) in Ht. done. }
    intros dmin dmax s e [= <- <- <- <-].
    destruct (minimum_spec t ts) as [Hmin_in Hmin].
    destruct (maximum_spec t ts) as [Hmax_in Hmax].
    rewrite <- Hts in Hmin_in, Hmax_in, Hmin, Hmax.
    assert (∀ r' t', r' ∈ sel → r_datetime_local r' = Some t' →
                     t' ∈ omap r_datetime_local sel) as Hsel.
    { intros r' t' Hr' Ht'. apply list_elem_of_omap. by exists r'. }
    split; [done |]. split; [done |]. split.
    { apply normalize_mono. by apply Hmin. }
    split; [apply normalize_idemp |]. split; [apply normalize_idemp |].
    split; [| split].
    + apply list_elem_of_omap in Hmin_in as (r & Hr & Ht).
      exists r, (minimum t ts). repeat split; try done.
      intros r' t' Hr' Ht'. apply Hmin. by apply (Hsel r').
    + apply list_elem_of_omap in Hmax_in as (r & Hr & Ht).
      exists r, (maximum t ts). repeat split; try done.
      intros r' t' Hr' Ht'. apply Hmax. by apply (Hsel r').
    + intros r t' Hr Ht'. specialize (Hsel r t' Hr Ht').
      specialize (Hmin t' Hsel). specialize (Hmax t' Hsel).
      pose proof (normalize_le (minimum t ts)).
      pose proof (normalize_le (maximum t ts)). lia.
Qed.

Lemma update_dates_cover_the_selection_witness :
  update_dates sample_readings (Some "Kuwait City") None
  = (Some 0, Some 0, Some 0, Some 0) ∧ 0 ≤ 0.
Proof.
  assert (update_dates sample_readings (Some "Kuwait City") None
          = (Some 0, Some 0, Some 0, Some 0)) as H by (vm_compute; reflexivity).
  split; [exact H |].
  destruct (proj2 (update_dates_cover_the_selection sample_readings
                     (Some "Kuwait City") None) 0 0 0 0 H) as (_ & _ & Hle & _).
  exact Hle.
Defined.

(** With dates from [update_dates] the selection is not empty, so the
    guard of the main callback leaves the station as it is. *)
Lemma guard_station_with_dates (df : list Reading)
    (city station : option string) (dmin dmax s e : Z)
    (sd ed : option Z) (pollutants : list string) :
  update_dates df city station = (Some dmin, Some dmax, Some s, Some e) →
  filter_readings df city (guard_station df city station) sd ed pollutants
  = filter_readings df city station sd ed pollutants.
Proof.
  intros Hdates. unfold guard_station.
  destruct station as [st|]; [| done].
  destruct (truthy city && truthy (Some st)
            && bool_decide (st ∉ valid_stations df city)) eqn:Hguard; [| done].
  apply andb_true_iff in Hguard as [[Hc Hs]%andb_true_iff Hno].
  apply bool_decide_eq_true in Hno. exfalso.
  rewrite update_dates_unfold in Hdates.
  destruct (omap r_datetime_local
              (filter_readings df city (Some st) None None [])) as [|t ts] eqn:Hts;
    [done |].
  assert (t ∈ omap r_datetime_local
                (filter_readings df city (Some st) None None [])) as Hin.
  { rewrite Hts. apply list_elem_of_here. }
  apply list_elem_of_omap in Hin as (r & Hr & _).
  apply elem_of_filter_readings in Hr as (Hr & Hcity & Hst & _).
  apply Hno, elem_of_valid_stations. exists r. auto.
Qed.

(** X18: with the default range that [update_dates] proposes for a city
    and a station, the date filter of the main callback removes no reading
    that has a timestamp: the selection is the one obtained without dates,
    less the rows without timestamp. *)
Theorem default_dates_drop_no_reading (df : list Reading)
    (city station : option string) (dmin dmax s e : Z)
    (pollutants : list string) (r : Reading) :
  update_dates df city station = (Some dmin, Some dmax, Some s, Some e) →
  (r ∈ filtered df city station (Some s) (Some e) pollutants ↔
   r ∈ filtered df city station None None pollutants
   ∧ is_Some (r_datetime_local r)).
Proof.
  intros Hdates. unfold filtered. cbn [fmap option_fmap option_map].
  rewrite !(guard_station_with_dates df city station dmin dmax s e) by done.
  destruct (update_dates_spec df city station dmin dmax s e Hdates)
    as (-> & -> & Hmin & Hmax & Hcover).
  rewrite Hmin, Hmax, !elem_of_filter_readings. split.
  - intros (Hr & Hc & Hs & Hsd & _ & Hp).
    destruct (Hsd _ eq_refl) as (t & Ht & _).
    split; [| by rewrite Ht]. repeat split; try done; by intros ? [=].
  - intros [(Hr & Hc & Hs & _ & _ & Hp) [t Ht]].
    assert (r ∈ filter_readings df city station None None []) as Hsel.
    { apply elem_of_filter_readings. repeat split; try done; by intros ? [=]. }
    destruct (Hcover r t Hsel Ht) as [H1 H2].
    repeat split; try done.
    + intros s' [= <-]. by exists t.
    + intros e' [= <-]. by exists t.
Qed.

Lemma default_dates_drop_no_reading_witness :
  update_dates sample_readings (Some "Kuwait City") None
  = (Some 0, Some 0, Some 0, Some 0) ∧
  {| r_city := Some "Kuwait City"; r_station := Some "S1";
     r_datetime_local := Some (2 * hour); r_pollutant := "pm25";
     r_value := Some 20%Q |}
  ∈ filtered sample_readings (Some "Kuwait City") None (Some 0) (Some 0)
      ["pm25"].
Proof.
  assert (update_dates sample_readings (Some "Kuwait City") None
          = (Some 0, Some 0, Some 0, Some 0)) as H by (vm_compute; reflexivity).
  split; [exact H |].
  apply (proj2 (default_dates_drop_no_reading sample_readings
                  (Some "Kuwait City") None 0 0 0 0 ["pm25"] _ H)).
  split; [| by eexists].
  apply (list_elem_of_lookup_2 _ 1%nat). vm_compute. reflexivity.
Defined.

(** * Further properties of the aggregation *)

Lemma cell_of_all_nan (row : Row) (p : string) :
  (∀ q x, (q, x) ∈ row → x = nan) → cell_of row p = nan.
Proof.
  induction row as [|[c x] row IH]; intros Hall; [done |].
  cbn [cell_of]. destruct (decide (c = p)).
  - apply (Hall c). apply list_elem_of_here.
  - apply IH. intros q y Hin. apply (Hall q). by apply list_elem_of_further.
Qed.

(** X20: when no bucket of [aqi_df] has an overall index, the four KPI
    tiles of the computed result show the dash, exactly as the tiles of
    the "no data" result do: the tiles alone do not tell the two apart. *)
Theorem undefined_frame_shows_dashes (fmt_0f fmt_1f : Q → string)
    (strftime fmt_date : Z → string) (city station : option string)
    (sd ed : option Z) (thresh : option Q) (pollutants : list string)
    (conc : DataFrame) (message : string) :
  (∀ b, b ∈ aqi_frame pollutants conc → aqi_max b = nan) →
  let out := dashboard fmt_0f fmt_1f strftime fmt_date city station sd ed
               thresh (aqi_columns pollutants conc)
               (aqi_frame pollutants conc) in
  kpi_avg_aqi out = kpi_avg_aqi (no_data message) ∧
  kpi_exceed_rate out = kpi_exceed_rate (no_data message) ∧
  kpi_worst_day out = kpi_worst_day (no_data message) ∧
  kpi_top_driver out = kpi_top_driver (no_data message).
Proof.
  intros Hall. set (aqi_df := aqi_frame pollutants conc).
  assert (notna_any (aqi_max <$> aqi_df) = false) as Hany.
  { apply notna_any_false. intros x (b & -> & Hb)%list_elem_of_fmap.
    by apply Hall. }
  assert (avg_aqi aqi_df = nan) as Havg by (unfold avg_aqi; by rewrite Hany).
  assert (exceed_rate aqi_df thresh = nan) as Hex
    by (unfold exceed_rate; by rewrite Hany).
  assert (worst aqi_df = None) as Hworst
    by (unfold worst, worst_idx; by rewrite Hany).
  assert (driver_key (mean_by_pollutant (aqi_columns pollutants conc) aqi_df)
          = "—") as Hdriver.
  { unfold driver_key.
    assert (notna_any ((mean_by_pollutant (aqi_columns pollutants conc)
                          aqi_df).*2) = false) as ->; [| done].
    apply notna_any_false. unfold mean_by_pollutant.
    intros x ([p m] & -> & (p' & [= -> ->] & _)%list_elem_of_fmap)%list_elem_of_fmap.
    cbn [snd]. apply nanmean_all_nan.
    intros x (b & -> & Hb)%list_elem_of_fmap. apply cell_of_all_nan.
    intros q y Hy. specialize (Hall b Hb).
    apply aqi_frame_bucket in Hb as (_ & _ & _ & Hmax & _).
    rewrite Hmax in Hall. apply (proj1 (nanmax_None _) Hall).
    by apply (list_elem_of_fmap_2 snd) in Hy. }
  unfold dashboard.
  cbn [kpi_avg_aqi kpi_exceed_rate kpi_worst_day kpi_top_driver no_data].
  fold aqi_df. by rewrite Havg, Hex, Hworst, Hdriver.
Qed.

Lemma undefined_frame_shows_dashes_witness :
  (∀ b, b ∈ aqi_frame ["pm25"] (concentrations gap_readings "D") →
        aqi_max b = nan) ∧
  kpi_avg_aqi
    (dashboard (λ _, "") (λ _, "") (λ _, "") (λ _, "") None None None None
       None (aqi_columns ["pm25"] (concentrations gap_readings "D"))
       (aqi_frame ["pm25"] (concentrations gap_readings "D")))
  = ["Avg AQI: —"].
Proof.
  assert (∀ b, b ∈ aqi_frame ["pm25"] (concentrations gap_readings "D") →
               aqi_max b = nan) as Hall.
  { intros b Hb.
    assert (aqi_frame ["pm25"] (concentrations gap_readings "D")
            = [ {| timestamp := 0; index_by_pollutant := [("pm25", nan)];
                   aqi_max := nan; aqi_cat := no_category |} ]) as Hframe
      by (vm_compute; reflexivity).
    rewrite Hframe in Hb. by apply list_elem_of_singleton in Hb as ->. }
  split; [exact Hall |].
  exact (proj1 (undefined_frame_shows_dashes (λ _, "") (λ _, "") (λ _, "")
                  (λ _, "") None None None None None ["pm25"]
                  (concentrations gap_readings "D") "" Hall)).
Defined.

(** ** The grid of buckets *)

Lemma pivot_table_index (obs : list Obs) :
  (rows (pivot_table obs)).*1
  = merge_sort Z.le (remove_dups ((λ o : Obs, o.1.1) <$> obs)).
Proof. unfold pivot_table. cbn [rows]. apply fmap_labelled. Qed.

Lemma pivot_table_increasing (obs : list Obs) :
  StronglySorted Z.lt ((rows (pivot_table obs)).*1).
Proof.
  rewrite pivot_table_index. apply StronglySorted_le_lt.
  - apply StronglySorted_merge_sort; apply _.
  - rewrite merge_sort_Permutation. apply NoDup_remove_dups.
Qed.

Lemma resample_mean_index (agg : string) (conc : DataFrame)
    (first lst : Z * Row) :
  head (rows conc) = Some first → last (rows conc) = Some lst →
  (rows (resample_mean agg conc)).*1
  = (λ k, bucket_label agg first.1 + k * bucket_width agg)
      <$> seqZ 0 ((bucket_label agg lst.1 - bucket_label agg first.1)
                  `div` bucket_width agg + 1).
Proof.
  intros Hh Hl. unfold resample_mean. rewrite Hh, Hl. cbn [rows].
  by rewrite <- list_fmap_compose.
Qed.

(** The labels of the bins lie on a regular grid, and a later timestamp
    never falls in an earlier bin. *)
Lemma bucket_label_grid (agg : string) :
  ∃ (origin : Z) (number : Z → Z),
    (∀ t, bucket_label agg t = origin + number t * bucket_width agg) ∧
    (∀ t1 t2, t1 ≤ t2 → number t1 ≤ number t2).
Proof.
  assert (0 < hour) as Hh by done. pose proof day_pos as Hd.
  unfold bucket_label, bucket_width.
  destruct (String.eqb agg "H"); [| destruct (String.eqb agg "D")].
  - exists 0, (λ t, t `div` hour). split; [intros t; lia |].
    intros t1 t2 Ht. by apply Z.div_le_mono.
  - exists 0, (λ t, t `div` day). split; [intros t; lia |].
    intros t1 t2 Ht. by apply Z.div_le_mono.
  - exists (3 * day), (λ t, - ((3 - t `div` day) `div` 7)). split.
    + intros t. cbv zeta. rewrite (Z.mod_eq (3 - t `div` day) 7) by done.
      unfold week. lia.
    + intros t1 t2 Ht. pose proof (Z.div_le_mono t1 t2 day Hd Ht).
      pose proof (Z.div_le_mono (3 - t2 `div` day) (3 - t1 `div` day) 7).
      lia.
Qed.

(** X21: no reading is lost and no bucket is skipped: the bucket of every
    reading that has a timestamp and a value is a row of the
    concentrations frame, and when the frame is resampled two consecutive
    rows are exactly one hour, one day or one week apart, whether or not
    a reading falls in them. *)
Theorem every_reading_has_its_bucket (dff : list Reading) (agg : string) :
  (∀ r t v, r ∈ dff → r_datetime_local r = Some t → r_value r = Some v →
            bucket_of agg t ∈ (rows (concentrations dff agg)).*1) ∧
  (is_granularity agg = true →
   ∀ i b1 b2, (rows (concentrations dff agg)).*1 !! i = Some b1 →
              (rows (concentrations dff agg)).*1 !! S i = Some b2 →
              b2 = b1 + bucket_width agg).
Proof.
  set (conc := pivot_table (dropna dff)).
  assert (∀ r t v, r ∈ dff → r_datetime_local r = Some t →
            r_value r = Some v → t ∈ (rows conc).*1) as Hidx.
  { intros r t v Hr Ht Hv. unfold conc.
    rewrite pivot_table_index, merge_sort_Permutation, elem_of_remove_dups.
    apply list_elem_of_fmap. exists (t, r_pollutant r, v). split; [done |].
    apply elem_of_dropna. by exists r. }
  pose proof (pivot_table_increasing (dropna dff)) as Hsorted. fold conc in Hsorted.
  unfold concentrations, bucket_of. fold conc.
  destruct (is_granularity agg); [| split; [exact Hidx | done]].
  destruct (bucket_label_grid agg) as (origin & number & Hlabel & Hmono).
  pose proof (bucket_width_pos agg) as Hw.
  destruct (head (rows conc)) as [first|] eqn:Hhead.
  - destruct (last (rows conc)) as [lst|] eqn:Hlast.
    2:{ apply last_None in Hlast. by rewrite Hlast in Hhead. }
    rewrite (resample_mean_index agg conc first lst Hhead Hlast).
    assert ((bucket_label agg lst.1 - bucket_label agg first.1)
              `div` bucket_width agg
            = number lst.1 - number first.1) as ->.
    { rewrite !Hlabel.
      replace (origin + number lst.1 * bucket_width agg
               - (origin + number first.1 * bucket_width agg))
        with ((number lst.1 - number first.1) * bucket_width agg) by lia.
      apply Z.div_mul. lia. }
    split.
    + intros r t v Hr Ht Hv. specialize (Hidx r t v Hr Ht Hv).
      assert (first.1 ≤ t) as Hlo.
      { destruct (rows conc) as [|f rest] eqn:Hrows; [done |].
        injection Hhead as ->. cbn [fmap list_fmap] in Hsorted, Hidx.
        apply StronglySorted_cons in Hsorted as [Hall _].
        apply elem_of_cons in Hidx as [-> | Hin]; [lia |].
        rewrite Forall_forall in Hall. specialize (Hall t Hin). lia. }
      assert (t ≤ lst.1) as Hhi.
      { apply last_Some in Hlast as [l' Hrows]. rewrite Hrows in Hsorted, Hidx.
        rewrite fmap_app in Hsorted, Hidx. cbn [fmap list_fmap] in Hsorted, Hidx.
        apply elem_of_app in Hidx as [Hin | ->%list_elem_of_singleton]; [| lia].
        apply (StronglySorted_app_1_elem_of _ _ _ t lst.1) in Hsorted;
          [lia | done | apply list_elem_of_here]. }
      apply list_elem_of_fmap. exists (number t - number first.1). split.
      * rewrite !Hlabel. lia.
      * apply elem_of_seqZ. pose proof (Hmono _ _ Hlo).
        pose proof (Hmono _ _ Hhi). lia.
    + intros _ i b1 b2 H1 H2.
      apply list_lookup_fmap_Some in H1 as (k1 & -> & Hk1).
      apply list_lookup_fmap_Some in H2 as (k2 & -> & Hk2).
      apply lookup_seqZ in Hk1 as [-> _]. apply lookup_seqZ in Hk2 as [-> _].
      lia.
  - apply head_None in Hhead. rewrite Hhead in Hidx. split.
    + intros r t v Hr Ht Hv. specialize (Hidx r t v Hr Ht Hv). inversion Hidx.
    + intros _ i b1 b2 H1.
      assert (rows (resample_mean agg conc) = []) as Hnil.
      { unfold resample_mean. by rewrite Hhead. }
      by rewrite Hnil in H1.
Qed.

Lemma every_reading_has_its_bucket_witness :
  bucket_of "H" (2 * hour) ∈ (rows (concentrations sample_readings "H")).*1.
Proof.
  apply (proj1 (every_reading_has_its_bucket sample_readings "H")
           {| r_city := Some "Kuwait City"; r_station := Some "S1";
              r_datetime_local := Some (2 * hour); r_pollutant := "pm25";
              r_value := Some 20%Q |} (2 * hour) 20%Q);
    [| reflexivity | reflexivity].
  apply list_elem_of_further, list_elem_of_here.
Defined.

(** ** The order of the station dropdown *)

Lemma na_last_trans (a b c : option string) :
  na_last a b → na_last b c → na_last a c.
Proof.
  destruct a as [x|], b as [y|], c as [z|]; cbn; try done.
  apply (transitivity (R := String.le)).
Qed.

Lemma na_last_antisym (a b : option string) :
  na_last a b → na_last b a → a = b.
Proof.
  destruct a as [x|], b as [y|]; cbn; try done.
  intros H1 H2. f_equal. by apply (anti_symm String.le).
Qed.

Lemma na_last_total (a b : option string) : na_last a b ∨ na_last b a.
Proof.
  destruct a as [x|], b as [y|]; cbn; try tauto.
  apply (total String.le).
Qed.

#[local] Instance city_station_le_trans : Transitive city_station_le.
Proof.
  intros [x1 x2] [y1 y2] [z1 z2]. unfold city_station_le. cbn [fst snd].
  intros H1 H2.
  destruct (decide (x1 = y1)) as [Hxy | Hxy], (decide (y1 = z1)) as [Hyz | Hyz],
    (decide (x1 = z1)) as [Hxz | Hxz]; try congruence.
  - by apply (na_last_trans _ y2).
  - destruct Hxy. apply na_last_antisym; [done |]. by rewrite Hxz.
  - by apply (na_last_trans _ y1).
Qed.

#[local] Instance city_station_le_total : Total city_station_le.
Proof.
  intros [x1 x2] [y1 y2]. unfold city_station_le. cbn [fst snd].
  destruct (decide (x1 = y1)) as [Hxy | Hxy], (decide (y1 = x1)) as [Hyx | Hyx];
    try congruence; apply na_last_total.
Qed.

Lemma StronglySorted_filter {A : Type} (R : relation A) (P : A → Prop)
    `{!∀ x, Decision (P x)} (l : list A) :
  StronglySorted R l → StronglySorted R (filter P l).
Proof.
  induction 1 as [|x l Hl IH Hx]; [constructor |].
  rewrite filter_cons. destruct (decide (P x)); [| done].
  constructor; [done |]. rewrite Forall_forall in *.
  intros y [_ Hy]%list_elem_of_filter. by apply Hx.
Qed.

Lemma drop_duplicates_NoDup {A : Type} `{EqDecision A} (l : list A) :
  NoDup l → drop_duplicates l = l.
Proof.
  unfold drop_duplicates.
  assert (∀ seen : list A, NoDup (seen ++ l) →
            foldl (λ seen x, if decide (x ∈ seen) then seen else seen ++ [x])
                  seen l = seen ++ l) as Hgen.
  { induction l as [|x l IH]; intros seen Hnd; cbn [foldl].
    - by rewrite app_nil_r.
    - rewrite decide_False.
      + rewrite IH; [by rewrite <- app_assoc |]. by rewrite <- app_assoc.
      + apply NoDup_app in Hnd as (_ & Hdisj & _). intros Hin.
        apply (Hdisj x Hin). apply list_elem_of_here. }
  intros Hnd. by apply (Hgen []).
Qed.

(** The stations of one city, as they follow one another in
    [stations_by_city]. *)
Lemma stations_of_city_sorted (city : option string)
    (l : list (option string * option string)) :
  StronglySorted city_station_le l → NoDup l →
  (∀ cs, cs ∈ l → cs.1 = city) →
  StronglySorted String.le (omap snd l) ∧ NoDup (omap snd l).
Proof.
  induction 1 as [|[c s] l Hl IH Hx]; intros Hnd Hcity.
  - split; constructor.
  - apply NoDup_cons in Hnd as [Hnin Hnd].
    destruct IH as [IH1 IH2]; [done | |].
    { intros cs Hcs. apply Hcity. by apply list_elem_of_further. }
    assert (c = city) as -> by (apply (Hcity (c, s)); apply list_elem_of_here).
    cbn [omap list_omap snd]. destruct s as [st|]; [| done].
    fold (omap (M := list) (@snd (option string) (option string)) l).
    rewrite Forall_forall in Hx. split; constructor; try done.
    + rewrite Forall_forall. intros st' ([c' s'] & Hin & Hs')%list_elem_of_omap.
      cbn [snd] in Hs'. subst s'. specialize (Hx _ Hin).
      assert (c' = city) as -> by (by apply (Hcity (c', Some st'));
                                     apply list_elem_of_further).
      unfold city_station_le in Hx. cbn [fst snd] in Hx.
      by rewrite decide_True in Hx.
    + intros ([c' s'] & Hin & Hs')%list_elem_of_omap. cbn [snd] in Hs'. subst s'.
      assert (c' = city) as -> by (by apply (Hcity (c', Some st));
                                     apply list_elem_of_further).
      done.
Qed.

(** X22: the station dropdown lists the stations of the selected city in
    alphabetical order (by code point). *)
Theorem update_stations_are_sorted (df : list Reading) (city : option string) :
  truthy city = true →
  StronglySorted String.le ((update_stations df city).1.*2).
Proof.
  intros Hcity. unfold update_stations. rewrite Hcity. cbn [fst].
  rewrite <- list_fmap_compose, list_fmap_id.
  destruct (stations_of_city_sorted city
              (filter (λ cs, cs.1 = city) (stations_by_city df)))
    as [Hsorted Hnd].
  - apply StronglySorted_filter. unfold stations_by_city.
    apply StronglySorted_merge_sort; apply _.
  - apply NoDup_filter. unfold stations_by_city.
    rewrite merge_sort_Permutation. apply NoDup_drop_duplicates.
  - by intros cs [? _]%list_elem_of_filter.
  - by rewrite drop_duplicates_NoDup.
Qed.

Lemma update_stations_are_sorted_witness :
  truthy (Some "Kuwait City") = true ∧
  StronglySorted String.le
    ((update_stations sample_readings (Some "Kuwait City")).1.*2).
Proof.
  split; [reflexivity |].
  apply update_stations_are_sorted. reflexivity.
Defined.

(** * Further properties of the trend and of the threshold *)

(** X23: in the trend figure of a frame built by the callback the upper
    end of the y-axis is at least 200 and no plotted index lies above it
    or below zero; the axis range is left unset exactly when no bucket has
    an overall index.  The figure plots one point per bucket. *)
Theorem trend_axis_holds_every_index (fmt_0f fmt_1f : Q → string)
    (strftime fmt_date : Z → string) (city station : option string)
    (sd ed : option Z) (thresh : option Q) (cols pollutants : list string)
    (conc : DataFrame) :
  ∃ title ymax,
    fig_aqi_trend (dashboard fmt_0f fmt_1f strftime fmt_date city station sd
                     ed thresh cols (aqi_frame pollutants conc))
    = trend_figure title (timestamp <$> aqi_frame pollutants conc)
        (aqi_max <$> aqi_frame pollutants conc) thresh
        (worst (aqi_frame pollutants conc)) ymax ∧
    (ymax = None ↔ ∀ b, b ∈ aqi_frame pollutants conc → aqi_max b = nan) ∧
    (∀ b a, b ∈ aqi_frame pollutants conc → aqi_max b = Some a →
            ∃ top, ymax = Some top ∧ (200 <= top)%Q ∧ (0 <= a)%Q
                   ∧ (a <= top)%Q).
Proof.
  set (aqi_df := aqi_frame pollutants conc).
  unfold dashboard. cbn [fig_aqi_trend]. fold aqi_df.
  eexists _, _. split; [reflexivity |].
  assert (∀ b a, b ∈ aqi_df → aqi_max b = Some a → (0 <= a)%Q) as Hpos.
  { intros b a Hb Ha.
    destruct (overall_index_is_computed pollutants conc b a Hb Ha)
      as (p & v & Hv).
    destruct (compute_aqi_in_band p v a Hv) as (lo & hi & name & Hin & ? & ?).
    destruct (band_limits lo hi name Hin). lra. }
  destruct (nanmax (aqi_max <$> aqi_df)) as [m|] eqn:Hmax.
  - split.
    + split; [done |]. intros Hall.
      apply nanmax_Some in Hmax as [(b & Hm & Hb)%list_elem_of_fmap _].
      by rewrite (Hall b Hb) in Hm.
    + intros b a Hb Ha. eexists. split; [reflexivity |].
      apply nanmax_Some in Hmax as [(b' & Hm & Hb')%list_elem_of_fmap Hle].
      assert (a <= m)%Q.
      { apply Hle. rewrite <- Ha. by apply list_elem_of_fmap_2. }
      pose proof (Hpos b a Hb Ha). cbv zeta.
      destruct (Qleb 200 (m * 1.15)) eqn:H200.
      * apply Qleb_true in H200. repeat split; lra.
      * apply Qleb_false in H200. repeat split; lra.
  - split.
    + split; [| done]. intros _ b Hb.
      apply (proj1 (nanmax_None _) Hmax). by apply list_elem_of_fmap_2.
    + intros b a Hb Ha. exfalso.
      assert (Some a = None); [| done].
      apply (proj1 (nanmax_None _) Hmax). rewrite <- Ha.
      by apply list_elem_of_fmap_2.
Qed.

Lemma trend_axis_holds_every_index_witness :
  sample_bucket ∈ aqi_frame ["pm25"; "o3"] (concentrations sample_readings "H") ∧
  aqi_max sample_bucket = Some (1575400 # 23300) ∧
  ∃ top, (200 <= top)%Q ∧ (1575400 # 23300 <= top)%Q.
Proof.
  split; [exact sample_bucket_in_frame |]. split; [reflexivity |].
  destruct (trend_axis_holds_every_index (λ _, "") (λ _, "") (λ _, "")
              (λ _, "") None None None None None ["pm25"; "o3"]
              ["pm25"; "o3"] (concentrations sample_readings "H"))
    as (title & ymax & _ & _ & H).
  destruct (H sample_bucket (1575400 # 23300) sample_bucket_in_frame eq_refl)
    as (top & _ & H200 & _ & Hle).
  exists top. split; [exact H200 | exact Hle].
Defined.

Lemma mask_sum_antitone (t1 t2 : Q) (s : list (option Q)) :
  (t1 <= t2)%Q →
  (sum ((λ b : bool, if b then 1 else 0) <$> (exceeds t2 <$> s))
   <= sum ((λ b : bool, if b then 1 else 0) <$> (exceeds t1 <$> s)))%Q.
Proof.
  intros Ht. induction s as [|x s IH]; [cbn; lra |].
  cbn [fmap list_fmap].
  change (sum (?a :: ?l)) with (a + sum l)%Q.
  assert (exceeds t2 x = true → exceeds t1 x = true) as Himp.
  { intros (a & -> & Ha)%exceeds_true. apply exceeds_true. exists a.
    split; [done | lra]. }
  destruct (exceeds t2 x) eqn:H2, (exceeds t1 x) eqn:H1.
  - lra.
  - discriminate (Himp eq_refl).
  - lra.
  - lra.
Qed.

(** X24: a higher threshold never gives a higher exceedance rate: of two
    thresholds, compared as the callback reads them (none, or zero, being
    100), the larger one has the smaller or the same rate. *)
Theorem exceed_rate_antitone (aqi_df : list Bucket) (thresh1 thresh2 : option Q)
    (r1 r2 : Q) :
  (thresh_or_100 thresh1 <= thresh_or_100 thresh2)%Q →
  exceed_rate aqi_df thresh1 = Some r1 →
  exceed_rate aqi_df thresh2 = Some r2 →
  (r2 <= r1)%Q.
Proof.
  intros Ht. unfold exceed_rate, bool_mean, mean.
  destruct (notna_any _); [| done].
  pose proof (mask_sum_antitone _ _ (aqi_max <$> aqi_df) Ht) as Hsum.
  destruct aqi_df as [|b rest]; [done |].
  cbn [fmap list_fmap option_fmap option_map] in *.
  intros [= <-] [= <-]. cbn [length]. rewrite !length_fmap.
  set (n := inject_Z _).
  assert (0 < n)%Q as Hn.
  { unfold n. change 0%Q with (inject_Z 0). rewrite <- Zlt_Qlt.
    cbn [length]. lia. }
  apply Qmult_le_compat_r; [| discriminate].
  apply Qmult_le_compat_r; [exact Hsum |].
  apply Qinv_le_0_compat. lra.
Qed.

Lemma exceed_rate_antitone_witness :
  (thresh_or_100 (Some 60%Q) <= thresh_or_100 None)%Q ∧
  exceed_rate [overall 0 (Some 50%Q); overall 1 (Some 80%Q)] (Some 60%Q)
  = Some (100 # 2) ∧
  exceed_rate [overall 0 (Some 50%Q); overall 1 (Some 80%Q)] None
  = Some (0 # 2) ∧
  (0 # 2 <= 100 # 2)%Q.
Proof.
  split; [discriminate |]. split; [reflexivity |]. split; [reflexivity |].
  apply (exceed_rate_antitone
           [overall 0 (Some 50%Q); overall 1 (Some 80%Q)] (Some 60%Q) None);
    [discriminate | reflexivity | reflexivity].
Defined.

(** * The category distribution on the frames of the callback *)

(** The classifier gives the label of a band exactly to the indices of
    that band: the bands do not overlap and their labels differ. *)
Lemma aqi_category_band (a : Q) (i : nat) (lo hi : Q) (name : string) :
  AQI_CATEGORY !! i = Some (lo, hi, name) →
  (aqi_category (Some a) = name ↔ (lo <= a)%Q ∧ (a <= hi)%Q).
Proof.
  intros Hi. unfold aqi_category, AQI_CATEGORY in *.
  cbn [scan_category].
  do 6 (destruct i as [|i];
        [injection Hi as <- <- <-;
         repeat (match goal with
                 | |- context [between ?l a ?h] =>
                     let H := fresh "H" in
                     destruct (between l a h) eqn:H;
                     [apply between_true in H | apply between_false in H]
                 end);
         cbn [default from_option id];
         (split; [intros Heq; first [discriminate Heq | tauto | lra]
                 | intros [? ?]; first [reflexivity | tauto | lra]]) |]).
  destruct i; discriminate.
Qed.

(** Two predicates that agree on the elements of a list keep the same
    elements of it. *)
Lemma filter_agree {A : Type} (P Q : A → Prop)
    `{!∀ x, Decision (P x)} `{!∀ x, Decision (Q x)} (l : list A) :
  (∀ x, x ∈ l → (P x ↔ Q x)) → filter P l = filter Q l.
Proof.
  induction l as [|x l IH]; intros Hl; [done |].
  rewrite !filter_cons.
  assert (filter P l = filter Q l) as ->.
  { apply IH. intros y Hy. apply Hl. by apply list_elem_of_further. }
  pose proof (Hl x (list_elem_of_here _ _)) as Hx.
  destruct (decide (P x)), (decide (Q x)); tauto || done.
Qed.

(** On a frame of the callback the bin of a bucket is the band of its
    category. *)
Lemma frame_bin_is_band (pollutants : list string) (conc : DataFrame)
    (bucket : Bucket) (i : nat) (lo hi : Q) (name : string) :
  bucket ∈ aqi_frame pollutants conc →
  AQI_CATEGORY !! i = Some (lo, hi, name) →
  (cut pie_bins (aqi_max bucket) = Some i ↔
   aqi_category (aqi_max bucket) = name).
Proof.
  intros Hb Hi. destruct (aqi_max bucket) as [a|] eqn:Ha.
  - split.
    + intros Hcut.
      destruct (overall_index_is_computed pollutants conc bucket a Hb Ha)
        as (p & v & Hv).
      destruct (compute_aqi_in_band p v a Hv) as (lo' & hi' & name' & Hin & ? & ?).
      apply list_elem_of_lookup in Hin as [j Hj].
      rewrite (band_in_bin a j lo' hi' name' Hj) in Hcut by done.
      injection Hcut as ->. rewrite Hi in Hj. injection Hj as <- <- <-.
      by apply (aqi_category_band a i lo hi name).
    + intros [? ?]%(aqi_category_band a i lo hi name Hi).
      by apply (band_in_bin a i lo hi name).
  - split; [done |]. intros Hcat. symmetry in Hcat.
    by destruct (band_names_are_labels lo hi name
                   (list_elem_of_lookup_2 _ _ _ Hi)).
Qed.

(** C2 (as stated, refuted): on the frame the callback builds from two
    hourly PM2.5 readings, 10 and 20, with an empty hour between them, the
    categories of the buckets are "Good", "—" and "Moderate".  The
    mapping of the pie chart counts one bucket for each of the first two
    bands, but its keys are the labels of the pie chart: the labels
    "Good" and "Moderate" of [AQI_CATEGORY] are not keys of it. *)
Lemma pie_keys_counterexample :
  fig_category_pie
    (update_all sample_readings (λ _, "") (λ _, "") (λ _, "") (λ _, "")
       None None None None ["pm25"; "o3"] "H" (Some 100%Q))
  = pie_figure
      [ "Good (0–50)"; "Moderate (51–100)"; "Unhealthy SG (101–150)";
        "Unhealthy (151–200)"; "Very Unhealthy (201–300)";
        "Hazardous (301–500)" ]
      [1; 1; 0; 0; 0; 0]%nat ∧
  (aqi_cat <$> aqi_frame ["pm25"; "o3"] (concentrations sample_readings "H"))
  = ["Good"; "—"; "Moderate"] ∧
  "Good" ∈ AQI_CATEGORY.*2 ∧ "Moderate" ∈ AQI_CATEGORY.*2 ∧
  ("Good" ∉ (counts (aqi_frame ["pm25"; "o3"]
                       (concentrations sample_readings "H"))).*1) ∧
  ("Moderate" ∉ (counts (aqi_frame ["pm25"; "o3"]
                           (concentrations sample_readings "H"))).*1).
Proof.
  split; [by vm_compute |]. split; [by vm_compute |].
  split; [apply list_elem_of_here |].
  split; [apply list_elem_of_further, list_elem_of_here |].
  change ((counts (aqi_frame ["pm25"; "o3"]
                     (concentrations sample_readings "H"))).*1)
    with pie_labels.
  split; unfold pie_labels;
    repeat (apply not_elem_of_cons; split; [discriminate |]);
    apply not_elem_of_nil.
Qed.

(** C2 (amended): for every frame of buckets the callback builds, the
    mapping has exactly one entry per band of [AQI_CATEGORY], in the order
    of the bands and zero-filled.  The entry of a band is keyed by the
    label of the pie chart at the position of the band, not by the label
    of the band, and counts the buckets that the classifier
    [aqi_category] puts in that band.  The classifier gives the label of a
    band exactly to the indices with [lo <= index <= hi] for that band,
    and a bucket without overall index has the label of no band: it is
    counted in no entry. *)
Theorem counts_classify_by_band :
  (∀ (pollutants : list string) (conc : DataFrame),
     (counts (aqi_frame pollutants conc)).*1 = pie_labels ∧
     length (counts (aqi_frame pollutants conc)) = length AQI_CATEGORY) ∧
  (∀ (pollutants : list string) (conc : DataFrame) (i : nat)
     (lo hi : Q) (name : string),
     AQI_CATEGORY !! i = Some (lo, hi, name) →
     ∃ label,
       pie_labels !! i = Some label ∧
       counts (aqi_frame pollutants conc) !! i
       = Some (label,
               length (filter (λ b, aqi_category (aqi_max b) = name)
                         (aqi_frame pollutants conc)))) ∧
  (∀ (a : Q) (i : nat) (lo hi : Q) (name : string),
     AQI_CATEGORY !! i = Some (lo, hi, name) →
     (aqi_category (Some a) = name ↔ (lo <= a)%Q ∧ (a <= hi)%Q)) ∧
  (∀ (lo hi : Q) (name : string),
     (lo, hi, name) ∈ AQI_CATEGORY → aqi_category nan ≠ name).
Proof.
  split; [| split; [| split]].
  - intros pollutants conc. split; reflexivity.
  - intros pollutants conc i lo hi name Hi.
    assert (i < length pie_labels)%nat as Hlt.
    { apply lookup_lt_Some in Hi. exact Hi. }
    apply lookup_lt_is_Some in Hlt as [label Hl]. exists label.
    split; [done |]. unfold counts, value_counts.
    rewrite list_lookup_imap, Hl. cbn [fmap option_fmap option_map].
    rewrite filter_codes. do 3 f_equal. apply filter_agree.
    intros b Hb. by apply (frame_bin_is_band pollutants conc b i lo hi name).
  - apply aqi_category_band.
  - intros lo hi name Hin Heq. symmetry in Heq.
    by destruct (band_names_are_labels lo hi name Hin).
Qed.

Lemma counts_classify_by_band_witness :
  AQI_CATEGORY !! 1%nat = Some (51%Q, 100%Q, "Moderate") ∧
  ∃ label,
    pie_labels !! 1%nat = Some label ∧
    counts (aqi_frame ["pm25"; "o3"] (concentrations sample_readings "H"))
      !! 1%nat
    = Some (label,
            length (filter (λ b, aqi_category (aqi_max b) = "Moderate")
                      (aqi_frame ["pm25"; "o3"]
                         (concentrations sample_readings "H")))).
Proof.
  split; [reflexivity |].
  apply (proj1 (proj2 counts_classify_by_band) ["pm25"; "o3"]
           (concentrations sample_readings "H") 1%nat 51%Q 100%Q "Moderate").
  reflexivity.
Defined.
